(** * upgradeplanner: scan-result classification, prompt construction and
      the retrying AI query client

    A shallow embedding of [upgradeplanner.py].  The program works on the
    values that [json.loads] produces, so the embedding has a type of such
    values and the handful of built-in operations the program applies to
    them ([bool], [len], [.get], subscription, iteration, [str]), each with
    the exception it raises on a value of the wrong kind.  The console, the
    scanner process and the text-generation endpoint are modelled by a trace
    of events and an environment that answers the calls. *)

From Stdlib Require Import String Ascii List Bool Arith ZArith Lia Permutation.
From Stdlib Require Import DecimalString.
Import ListNotations.
Open Scope string_scope.

Set Implicit Arguments.
Set Warnings "-register-all".

(** ** Results of fallible code *)

(** The built-in exceptions the pure part of the program can raise. *)
Inductive pyerr : Type :=
| AttributeError
| TypeError
| IndexError
| KeyError.

Inductive result (A : Type) : Type :=
| Ok (a : A)
| Raise (e : pyerr).

Arguments Ok {A} a.
Arguments Raise {A} e.

Definition rbind {A B : Type} (r : result A) (k : A -> result B) : result B :=
  match r with
  | Ok a => k a
  | Raise e => Raise e
  end.

Declare Scope result_scope.
Delimit Scope result_scope with result.
Notation "x <- r ;; k" := (rbind r (fun x => k))
  (at level 61, r at next level, right associativity) : result_scope.

(** [[f(x) for x in xs]] with a body that may raise: the first exception, in
    order, ends the comprehension. *)
Fixpoint rmap {A B : Type} (f : A -> result B) (xs : list A) : result (list B) :=
  match xs with
  | [] => Ok []
  | x :: rest =>
      (y <- f x ;;
       ys <- rmap f rest ;;
       Ok (y :: ys))%result
  end.

(** ** Text *)

Definition nl : string := String (ascii_of_nat 10) EmptyString.

(** [sep.join(parts)] *)
Fixpoint join (sep : string) (parts : list string) : string :=
  match parts with
  | [] => ""
  | [p] => p
  | p :: rest => p ++ sep ++ join sep rest
  end.

(** [s * n] *)
Fixpoint str_mul (s : string) (n : nat) : string :=
  match n with
  | O => ""
  | S k => s ++ str_mul s k
  end.

(** Text is held as its UTF-8 bytes.  Python counts, indexes and iterates text
    by code point, so those operations go through [py_chars], which cuts the
    bytes before every byte that is not a continuation byte (10xxxxxx). *)
Definition is_continuation (c : ascii) : bool :=
  let n := nat_of_ascii c in (Nat.leb 128 n && Nat.ltb n 192)%bool.

Fixpoint split_chars (s : string) : string * list string :=
  match s with
  | EmptyString => ("", [])
  | String c rest =>
      let (k, cs) := split_chars rest in
      if is_continuation c then (String c k, cs) else ("", String c k :: cs)
  end.

Definition py_chars (s : string) : list string := snd (split_chars s).

(** [sub in s], as a boolean test and as a proposition. *)
Fixpoint has_infix (sub s : string) : bool :=
  prefix sub s ||
  match s with
  | EmptyString => false
  | String _ rest => has_infix sub rest
  end.

Definition contains (s sub : string) : Prop :=
  exists pre post, s = pre ++ sub ++ post.

(** ** Python values *)

(** What the interpreter supplies and the program only uses: the numbers of a
    JSON document (the program tests them for truth and formats them, nothing
    else) and [repr] of a text, which [str] applies to the texts inside a list
    or a dict. *)
Class Runtime : Type := {
  number : Type;
  num_truthy : number -> bool;
  num_str : number -> string;
  str_repr : string -> string
}.

(** The values [json.loads] builds.  A dict is its items in insertion order;
    its keys are texts and pairwise distinct. *)
Inductive value {R : Runtime} : Type :=
| VNone
| VBool (b : bool)
| VNum (n : number)
| VStr (s : string)
| VList (items : list value)
| VDict (items : list (string * value)).

Section Builtins.
Context {R : Runtime}.

Fixpoint lookup (key : string) (items : list (string * value)) : option value :=
  match items with
  | [] => None
  | (k, v) :: rest => if String.eqb key k then Some v else lookup key rest
  end.

(** [bool(v)] *)
Definition truthy (v : value) : bool :=
  match v with
  | VNone => false
  | VBool b => b
  | VNum n => num_truthy n
  | VStr s => negb (String.eqb s "")
  | VList items => negb (Nat.eqb (List.length items) 0)
  | VDict items => negb (Nat.eqb (List.length items) 0)
  end.

(** [v.get(key, default)]: only a dict has the method. *)
Definition py_get (v : value) (key : string) (default : value) : result value :=
  match v with
  | VDict items =>
      Ok (match lookup key items with
          | Some x => x
          | None => default
          end)
  | _ => Raise AttributeError
  end.

(** [v[key]] for a text key. *)
Definition getitem_key (v : value) (key : string) : result value :=
  match v with
  | VDict items =>
      match lookup key items with
      | Some x => Ok x
      | None => Raise KeyError
      end
  | _ => Raise TypeError
  end.

(** [v[i]] for a non-negative integer [i].  A dict of a JSON document has
    only text keys, so an integer is never one of them. *)
Definition getitem_index (v : value) (i : nat) : result value :=
  match v with
  | VList items =>
      match nth_error items i with
      | Some x => Ok x
      | None => Raise IndexError
      end
  | VStr s =>
      match nth_error (py_chars s) i with
      | Some c => Ok (VStr c)
      | None => Raise IndexError
      end
  | VDict _ => Raise KeyError
  | _ => Raise TypeError
  end.

(** [len(v)] *)
Definition py_len (v : value) : result nat :=
  match v with
  | VList items => Ok (List.length items)
  | VStr s => Ok (List.length (py_chars s))
  | VDict items => Ok (List.length items)
  | _ => Raise TypeError
  end.

(** [for x in v]: the values the iteration yields. *)
Definition py_iter (v : value) : result (list value) :=
  match v with
  | VList items => Ok items
  | VStr s => Ok (map VStr (py_chars s))
  | VDict items => Ok (map (fun kv => VStr (fst kv)) items)
  | _ => Raise TypeError
  end.

(** [repr(v)] and [str(v)]; they differ on a text only. *)
Fixpoint py_repr (v : value) : string :=
  match v with
  | VNone => "None"
  | VBool true => "True"
  | VBool false => "False"
  | VNum n => num_str n
  | VStr s => str_repr s
  | VList items => "[" ++ join ", " (map py_repr items) ++ "]"
  | VDict items =>
      "{" ++ join ", " (map (fun kv => str_repr (fst kv) ++ ": " ++ py_repr (snd kv)) items)
          ++ "}"
  end.

Definition py_str (v : value) : string :=
  match v with
  | VStr s => s
  | _ => py_repr v
  end.

End Builtins.

(** ** The pure functions of the program *)

Section Program.
Context {R : Runtime}.
Open Scope result_scope.

(** The test of the classification loop:
    [vuln.get('upgradePath') and len(vuln['upgradePath']) > 1]. *)
Definition has_upgrade (vuln : value) : result bool :=
  path <- py_get vuln "upgradePath" VNone ;;
  if truthy path then
    (again <- getitem_key vuln "upgradePath" ;;
     n <- py_len again ;;
     Ok (Nat.ltb 1 n))
  else Ok false.

(** The loop of [process_snyk_results]; the two accumulators are the lists the
    loop appends to. *)
Fixpoint classify (vulnerabilities fixable_vulns unfixable_vulns : list value)
  : result (list value * list value) :=
  match vulnerabilities with
  | [] => Ok (fixable_vulns, unfixable_vulns)
  | vuln :: rest =>
      fix_found <- has_upgrade vuln ;;
      if fix_found
      then classify rest (fixable_vulns ++ [vuln]) unfixable_vulns
      else classify rest fixable_vulns (unfixable_vulns ++ [vuln])
  end.

(** What one item of a monorepo result contributes to the comprehension
    [[vuln for item in snyk_data for vuln in item.get('vulnerabilities', [])]]. *)
Definition item_vulnerabilities (item : value) : result (list value) :=
  found <- py_get item "vulnerabilities" (VList []) ;;
  py_iter found.

(** The value bound to the local [vulnerabilities]: the flattened list when
    [isinstance(snyk_data, list)], the project's own entry otherwise. *)
Definition vulnerabilities_of (snyk_data : value) : result value :=
  match snyk_data with
  | VList items =>
      per_item <- rmap item_vulnerabilities items ;;
      Ok (VList (concat per_item))
  | _ => py_get snyk_data "vulnerabilities" (VList [])
  end.

Definition process_snyk_results (snyk_data : value)
  : result (list value * list value) :=
  if negb (truthy snyk_data) then Ok ([], [])
  else
    vulnerabilities <- vulnerabilities_of snyk_data ;;
    records <- py_iter vulnerabilities ;;
    classify records [] [].

(** One entry of [prompt_details] in [create_upgrade_prompt]. *)
Definition upgrade_detail (vuln : value) : result string :=
  name <- py_get vuln "packageName" VNone ;;
  version <- py_get vuln "version" VNone ;;
  path <- py_get vuln "upgradePath" (VList [VStr "N/A"]) ;;
  upgrade <- getitem_index path 1 ;;
  severity <- py_get vuln "severity" VNone ;;
  Ok ("- Package: " ++ py_str name ++ nl ++
      "  Current Version: " ++ py_str version ++ nl ++
      "  Suggested Upgrade: " ++ py_str upgrade ++ nl ++
      "  Severity: " ++ py_str severity).

Definition upgrade_template (details_string : string) : string :=
  nl ++
  "    You are an expert software engineer. Based on the following list of vulnerabilities, create a prioritized, step-by-step upgrade plan in Markdown format. Group patch and minor updates first to minimize breaking changes." ++ nl ++
  nl ++
  "    Vulnerabilities with a direct fix:" ++ nl ++
  "    " ++ details_string ++ nl ++
  "    ".

Definition create_upgrade_prompt (vulnerabilities : list value) : result string :=
  prompt_details <- rmap upgrade_detail vulnerabilities ;;
  Ok (upgrade_template (join nl prompt_details)).

(** One entry of [prompt_details] in [create_replacement_prompt]. *)
Definition replacement_detail (vuln : value) : result string :=
  name <- py_get vuln "packageName" VNone ;;
  title <- py_get vuln "title" VNone ;;
  severity <- py_get vuln "severity" VNone ;;
  Ok ("- Package: '" ++ py_str name ++ "'" ++ nl ++
      "  Vulnerability: " ++ py_str title ++ " (" ++ py_str severity ++ " severity)").

Definition replacement_template (details_string : string) : string :=
  nl ++
  "    You are an expert software engineer. The following open-source packages have vulnerabilities with no direct upgrade path available. " ++ nl ++
  "    For each package, please infer its primary purpose from its name and suggest 1-2 popular, well-maintained alternative packages that fulfill the same purpose. " ++ nl ++
  "    Provide a brief justification for each suggestion. Format the output clearly in Markdown." ++ nl ++
  nl ++
  "    Packages needing replacement:" ++ nl ++
  "    " ++ details_string ++ nl ++
  "    ".

Definition create_replacement_prompt (vulnerabilities : list value) : result string :=
  prompt_details <- rmap replacement_detail vulnerabilities ;;
  Ok (replacement_template (join nl prompt_details)).

End Program.

(** ** The outside world *)

(** What a remote call can end in.  [ResourceExhausted] is the rate-limit
    exception of the client library; every other [Exception] the call raises
    is an [OtherException].  Both carry the text [str(e)].  What is not an
    [Exception] (an interrupt of the process) is not caught by the program and
    is not modelled. *)
Inductive api_error : Type :=
| ResourceExhausted (msg : string)
| OtherException (msg : string).

Definition error_str (e : api_error) : string :=
  match e with
  | ResourceExhausted msg => msg
  | OtherException msg => msg
  end.

Inductive attempt : Type :=
| Returned (text : string)
| Failed (e : api_error).

(** What [subprocess.run] ends in: [FileNotFoundError], or a completed
    process. *)
Inductive process : Type :=
| CommandNotFound
| Completed (returncode : Z) (stdout stderr : string).

Section World.
Context {R : Runtime}.

(** What the program does to the outside, in the order it does it. *)
Inductive event : Type :=
| EPrint (line : string)
| EInput (prompt : string)
| EConfigure (api_key : string)
| ERun (argv : list string) (cwd : string)
| EGenerate (model : string) (prompt : value)
| ESleep (seconds : Z).

(** What the outside answers.  [env_endpoint n prompt] is how the remote call
    that [n] calls precede ends. *)
Record Env : Type := {
  env_api_key : option string;
  env_input : string;
  env_isdir : string -> bool;
  env_snyk : string -> process;
  json_loads : string -> option value;
  env_endpoint : nat -> value -> attempt
}.

Definition is_generate (e : event) : bool :=
  match e with
  | EGenerate _ _ => true
  | _ => false
  end.

Definition remote_calls (trace : list event) : nat :=
  List.length (filter is_generate trace).

Definition printed (trace : list event) : list string :=
  flat_map (fun e => match e with EPrint line => [line] | _ => [] end) trace.

(** A computation extends the trace and returns or raises. *)
Definition M (A : Type) : Type := list event -> result A * list event.

Definition ret {A : Type} (a : A) : M A := fun trace => (Ok a, trace).

Definition bind {A B : Type} (m : M A) (k : A -> M B) : M B :=
  fun trace =>
    match m trace with
    | (Ok a, trace') => k a trace'
    | (Raise e, trace') => (Raise e, trace')
    end.

Definition lift {A : Type} (r : result A) : M A := fun trace => (r, trace).

Definition emit (e : event) : M unit := fun trace => (Ok tt, (trace ++ [e])%list).

Definition print (line : string) : M unit := emit (EPrint line).

End World.

Declare Scope prog_scope.
Delimit Scope prog_scope with prog.
Notation "x <- m ;; k" := (bind m (fun x => k))
  (at level 61, m at next level, right associativity) : prog_scope.
Notation "m ;;; k" := (bind m (fun _ => k))
  (at level 61, right associativity) : prog_scope.

(** ** The functions of the program that talk to the outside *)

Section Effects.
Context {R : Runtime}.
Variable env : Env.
Open Scope prog_scope.

Definition run_snyk_scan (project_path : string) : M value :=
  print "🔬 Running Snyk scan... (This may take a moment)" ;;;
  emit (ERun ["snyk"; "test"; "--json"] project_path) ;;;
  match env_snyk env project_path with
  | Completed returncode stdout stderr =>
      if negb (Z.eqb returncode 0) && negb (truthy (VStr stdout)) then
        print ("❌ Snyk command failed with an error:" ++ nl ++ stderr) ;;;
        ret VNone
      else
        match json_loads env stdout with
        | Some parsed => ret parsed
        | None =>
            print "❌ Error: Failed to decode Snyk's JSON output. Is the project configured correctly?" ;;;
            ret VNone
        end
  | CommandNotFound =>
      print "❌ Error: 'snyk' command not found. Is the Snyk CLI installed and in your PATH?" ;;;
      ret VNone
  end.

(** [genai.GenerativeModel(...).generate_content(prompt).text] inside a
    [try]: one remote call, and how it ended. *)
Definition generate_content (prompt : value) : M attempt :=
  fun trace =>
    (Ok (env_endpoint env (remote_calls trace) prompt),
     (trace ++ [EGenerate "gemini-1.5-flash-latest" prompt])%list).

Definition get_ai_response (prompt : value) : M string :=
  if negb (truthy prompt) then ret "Prompt could not be created."
  else
    print "🧠 Asking Gemini for insights..." ;;;
    first <- generate_content prompt ;;
    match first with
    | Returned text => ret text
    | Failed (ResourceExhausted _) =>
        print "🟡 Rate limit hit. Waiting for 30 seconds before retrying..." ;;;
        emit (ESleep 30) ;;;
        print " yeniden deneme..." ;;;
        second <- generate_content prompt ;;
        match second with
        | Returned text => ret text
        | Failed e => ret ("❌ Error on retry: " ++ error_str e)
        end
    | Failed e => ret ("❌ An unexpected error occurred: " ++ error_str e)
    end.

(** The second half of [main]: what it does with a scan result that passed
    the [if not snyk_results] guard. *)
Definition present_results (snyk_results : value) : M unit :=
  classified <- lift (process_snyk_results snyk_results) ;;
  let fixable := fst classified in
  let unfixable := snd classified in
  (if truthy (VList fixable) then
     upgrade_prompt <- lift (create_upgrade_prompt fixable) ;;
     upgrade_plan <- get_ai_response (VStr upgrade_prompt) ;;
     print (nl ++ str_mul "=" 50) ;;;
     print "🚀 Your AI-Generated Dependency Upgrade Plan 🚀" ;;;
     print (str_mul "=" 50 ++ nl) ;;;
     print upgrade_plan
   else
     print (nl ++ "✅ No vulnerabilities with direct upgrade paths were found.")) ;;;
  (if truthy (VList unfixable) then
     replacement_prompt <- lift (create_replacement_prompt unfixable) ;;
     replacement_suggestions <- get_ai_response (VStr replacement_prompt) ;;
     print (nl ++ str_mul "=" 50) ;;;
     print "🤔 AI Suggestions for Package Replacements 🤔" ;;;
     print (str_mul "=" 50 ++ nl) ;;;
     print replacement_suggestions
   else
     print (nl ++ "✅ All found vulnerabilities seem to have a direct upgrade path.")).

Definition main : M unit :=
  match env_api_key env with
  | None => print "🚨 Please set the GOOGLE_API_KEY in a .env file."
  | Some api_key =>
      if negb (truthy (VStr api_key)) then
        print "🚨 Please set the GOOGLE_API_KEY in a .env file."
      else
        emit (EConfigure api_key) ;;;
        emit (EInput "Please enter the full path to the project you want to scan: ") ;;;
        let project_path_to_scan := env_input env in
        if negb (truthy (VStr project_path_to_scan))
           || negb (env_isdir env project_path_to_scan) then
          print "❌ Invalid path entered. Please provide a valid directory. Exiting."
        else
          snyk_results <- run_snyk_scan project_path_to_scan ;;
          if negb (truthy snyk_results) then ret tt
          else present_results snyk_results
  end.

End Effects.

(** ** The vocabulary of the specification *)

Section Vocabulary.
Context {R : Runtime}.

(** The upgrade path of a record as the data model has it: a sequence of
    version identifiers, absent when the record has no such field. *)
Definition upgrade_path (vuln : value) : option (list value) :=
  match vuln with
  | VDict fields =>
      match lookup "upgradePath" fields with
      | Some (VList path) => Some path
      | _ => None
      end
  | _ => None
  end.

(** "A record is fixable if and only if its upgrade path has more than one
    element." *)
Definition spec_fixable (vuln : value) : bool :=
  match upgrade_path vuln with
  | Some path => Nat.ltb 1 (List.length path)
  | None => false
  end.

Definition spec_unfixable (vuln : value) : bool := negb (spec_fixable vuln).

(** The vulnerability list of one project ("if absent, treat as empty"). *)
Definition project_records (project : value) : list value :=
  match project with
  | VDict fields =>
      match lookup "vulnerabilities" fields with
      | Some (VList records) => records
      | _ => []
      end
  | _ => []
  end.

(** "ScanResult: either a single project's vulnerability list or a collection
    of per-subproject vulnerability lists; normalizes to one flat ordered
    sequence." *)
Definition scan_records (snyk_data : value) : list value :=
  match snyk_data with
  | VList projects => concat (map project_records projects)
  | project => project_records project
  end.

(** A vulnerability record: a dict whose upgrade path, when it has one, is a
    sequence. *)
Definition is_record (vuln : value) : bool :=
  match vuln with
  | VDict fields =>
      match lookup "upgradePath" fields with
      | None => true
      | Some VNone => true
      | Some (VList _) => true
      | Some _ => false
      end
  | _ => false
  end.

(** A project result: a dict whose vulnerability list, when it has one, is a
    list. *)
Definition is_project (project : value) : bool :=
  match project with
  | VDict fields =>
      match lookup "vulnerabilities" fields with
      | None => true
      | Some (VList _) => true
      | Some _ => false
      end
  | _ => false
  end.

Definition wf_project (project : value) : bool :=
  is_project project && forallb is_record (project_records project).

(** A scan result as the scanner delivers it: nothing, one project, or a
    list of projects. *)
Definition wf_scan (snyk_data : value) : bool :=
  match snyk_data with
  | VNone => true
  | VList projects => forallb wf_project projects
  | project => wf_project project
  end.

(** Two records with the same fields, whatever their order in the dict. *)
Definition same_record (a b : value) : Prop :=
  match a, b with
  | VDict x, VDict y => forall key, lookup key x = lookup key y
  | _, _ => a = b
  end.

(** A record with its upgrade path taken away. *)
Definition without_upgrade_path (vuln : value) : value :=
  match vuln with
  | VDict fields =>
      VDict (filter (fun kv => negb (String.eqb "upgradePath" (fst kv))) fields)
  | _ => vuln
  end.

(** The record has fewer than two elements in its upgrade path, or none. *)
Definition short_upgrade_path (vuln : value) : bool :=
  match vuln with
  | VDict fields =>
      match lookup "upgradePath" fields with
      | None => true
      | Some (VList path) => Nat.ltb (List.length path) 2
      | Some _ => false
      end
  | _ => false
  end.

(** The run got past the credential and path checks and the scanner
    delivered [snyk_data]. *)
Definition scan_delivered (env : Env) (snyk_data : value) : Prop :=
  exists api_key returncode stdout stderr,
    env_api_key env = Some api_key /\
    truthy (VStr api_key) = true /\
    truthy (VStr (env_input env)) = true /\
    env_isdir env (env_input env) = true /\
    env_snyk env (env_input env) = Completed returncode stdout stderr /\
    (negb (Z.eqb returncode 0) && negb (truthy (VStr stdout)))%bool = false /\
    json_loads env stdout = Some snyk_data.

(** The trace of [main] up to the return of the scan. *)
Definition scan_trace (env : Env) : list event :=
  [EConfigure (match env_api_key env with Some k => k | None => "" end);
   EInput "Please enter the full path to the project you want to scan: ";
   EPrint "🔬 Running Snyk scan... (This may take a moment)";
   ERun ["snyk"; "test"; "--json"] (env_input env)].

Definition no_fixable_notice : string :=
  nl ++ "✅ No vulnerabilities with direct upgrade paths were found.".

Definition all_fixable_notice : string :=
  nl ++ "✅ All found vulnerabilities seem to have a direct upgrade path.".

Definition upgrade_banner : list event :=
  [EPrint (nl ++ str_mul "=" 50);
   EPrint "🚀 Your AI-Generated Dependency Upgrade Plan 🚀";
   EPrint (str_mul "=" 50 ++ nl)].

Definition replacement_banner : list event :=
  [EPrint (nl ++ str_mul "=" 50);
   EPrint "🤔 AI Suggestions for Package Replacements 🤔";
   EPrint (str_mul "=" 50 ++ nl)].

End Vocabulary.

(** ** A concrete runtime and concrete environments *)

(** Integers for numbers, and [repr] as it is on a text of printable
    characters without quote or backslash. *)
Definition int_runtime : Runtime := {|
  number := Z;
  num_truthy := fun z => negb (Z.eqb z 0);
  num_str := fun z => NilZero.string_of_int (Z.to_int z);
  str_repr := fun s => "'" ++ s ++ "'"
|}.

(** The endpoint that answers the successive calls from a script, and fails
    once the script is over. *)
Definition scripted {R : Runtime} (script : list attempt) : nat -> value -> attempt :=
  fun n _ => nth n script (Failed (OtherException "connection reset")).

(** A run with a credential and a valid directory, where the scanner prints
    [stdout], which parses to [parsed], and the endpoint follows [script]. *)
Definition scanning_env {R : Runtime} (stdout : string) (parsed : value)
    (script : list attempt) : Env := {|
  env_api_key := Some "key";
  env_input := "/srv/project";
  env_isdir := fun _ => true;
  env_snyk := fun _ => Completed 1 stdout "";
  json_loads := fun text => if String.eqb text stdout then Some parsed else None;
  env_endpoint := scripted script
|}.

Definition lodash {R : Runtime} : value :=
  VDict [("packageName", VStr "lodash"); ("version", VStr "4.0.0");
         ("title", VStr "Prototype Pollution"); ("severity", VStr "high");
         ("upgradePath", VList [VBool false; VStr "lodash@4.17.21"])].

Definition old_lib {R : Runtime} : value :=
  VDict [("packageName", VStr "old-lib"); ("title", VStr "Prototype Pollution");
         ("severity", VStr "critical"); ("upgradePath", VList [])].

(** The same record as [lodash], its fields in another order. *)
Definition lodash_reordered {R : Runtime} : value :=
  VDict [("upgradePath", VList [VBool false; VStr "lodash@4.17.21"]);
         ("severity", VStr "high"); ("title", VStr "Prototype Pollution");
         ("version", VStr "4.0.0"); ("packageName", VStr "lodash")].

(** A monorepo result of two projects, a project result with one record of
    each kind, and a project result without vulnerabilities. *)
Definition monorepo_scan {R : Runtime} : value :=
  VList [VDict [("projectName", VStr "web"); ("vulnerabilities", VList [lodash; old_lib])];
         VDict [("projectName", VStr "api"); ("vulnerabilities", VList [old_lib])]].

Definition mixed_scan {R : Runtime} : value :=
  VDict [("ok", VBool false); ("vulnerabilities", VList [lodash; old_lib])].

Definition clean_scan {R : Runtime} : value :=
  VDict [("ok", VBool true); ("vulnerabilities", VList [])].

(** The scanner output that [json.loads] turns into [clean_scan] and into
    [mixed_scan]. *)
Definition dq : string := String (ascii_of_nat 34) EmptyString.

Definition clean_stdout : string :=
  "{" ++ dq ++
  "ok" ++ dq ++
  ": true, " ++ dq ++
  "vulnerabilities" ++ dq ++
  ": []}".

Definition mixed_stdout : string :=
  "{" ++ dq ++
  "ok" ++ dq ++
  ": false, " ++ dq ++
  "vulnerabilities" ++ dq ++
  ": [{" ++ dq ++
  "packageName" ++ dq ++
  ": " ++ dq ++
  "lodash" ++ dq ++
  ", " ++ dq ++
  "version" ++ dq ++
  ": " ++ dq ++
  "4.0.0" ++ dq ++
  ", " ++ dq ++
  "title" ++ dq ++
  ": " ++ dq ++
  "Prototype Pollution" ++ dq ++
  ", " ++ dq ++
  "severity" ++ dq ++
  ": " ++ dq ++
  "high" ++ dq ++
  ", " ++ dq ++
  "upgradePath" ++ dq ++
  ": [false, " ++ dq ++
  "lodash@4.17.21" ++ dq ++
  "]}, {" ++ dq ++
  "packageName" ++ dq ++
  ": " ++ dq ++
  "old-lib" ++ dq ++
  ", " ++ dq ++
  "title" ++ dq ++
  ": " ++ dq ++
  "Prototype Pollution" ++ dq ++
  ", " ++ dq ++
  "severity" ++ dq ++
  ": " ++ dq ++
  "critical" ++ dq ++
  ", " ++ dq ++
  "upgradePath" ++ dq ++
  ": []}]}".

(** ** What a run spends, and what a prompt shows *)

Section Accounting.
Context {R : Runtime}.

Definition is_run (e : event) : bool :=
  match e with
  | ERun _ _ => true
  | _ => false
  end.

(** The scanner processes a trace launches. *)
Definition launches (trace : list event) : nat :=
  List.length (filter is_run trace).

(** The seconds a trace spends in [time.sleep]. *)
Fixpoint seconds_slept (trace : list event) : Z :=
  match trace with
  | [] => 0
  | ESleep seconds :: rest => seconds + seconds_slept rest
  | _ :: rest => seconds_slept rest
  end.

(** From every trace, the computation adds events that hold at most [calls]
    remote calls, [runs] scanner launches and [seconds] of sleep. *)
Definition spends {A : Type} (m : M A) (calls runs : nat) (seconds : Z) : Prop :=
  forall trace,
    exists added,
      snd (m trace) = (trace ++ added)%list /\
      remote_calls added <= calls /\
      launches added <= runs /\
      (0 <= seconds_slept added <= seconds)%Z.

Definition is_dict (v : value) : bool :=
  match v with
  | VDict _ => true
  | _ => false
  end.

(** A list or a dict. *)
Definition is_container (v : value) : bool :=
  match v with
  | VList _ => true
  | VDict _ => true
  | _ => false
  end.

(** What an f-string shows for [vuln.get(key)]: the field, or None. *)
Definition field_text (fields : list (string * value)) (key : string) : string :=
  py_str (match lookup key fields with
          | Some v => v
          | None => VNone
          end).

(** The block of a record in the upgrade prompt and in the replacement
    prompt, as the prompt shows it. *)
Definition upgrade_block (fields : list (string * value)) (upgrade : value) : string :=
  "- Package: " ++ field_text fields "packageName" ++ nl ++
  "  Current Version: " ++ field_text fields "version" ++ nl ++
  "  Suggested Upgrade: " ++ py_str upgrade ++ nl ++
  "  Severity: " ++ field_text fields "severity".

Definition replacement_block (fields : list (string * value)) : string :=
  "- Package: '" ++ field_text fields "packageName" ++ "'" ++ nl ++
  "  Vulnerability: " ++ field_text fields "title" ++
  " (" ++ field_text fields "severity" ++ " severity)".

(** The trace of [main] when it asks for the path, and the trace of a scan
    of [project_path]. *)
Definition asked_for_path (api_key : string) : list event :=
  [EConfigure api_key;
   EInput "Please enter the full path to the project you want to scan: "].

Definition scan_started (project_path : string) : list event :=
  [EPrint "🔬 Running Snyk scan... (This may take a moment)";
   ERun ["snyk"; "test"; "--json"] project_path].

End Accounting.


Definition failed_tool_env {R : Runtime} : Env := {|
  env_api_key := Some "key";
  env_input := "/srv/project";
  env_isdir := fun _ => true;
  env_snyk := fun _ => Completed 2 "" "snyk: authentication failed";
  json_loads := fun _ => None;
  env_endpoint := scripted []
|}.

Definition no_key_env {R : Runtime} : Env := {|
  env_api_key := Some "";
  env_input := "/srv/project";
  env_isdir := fun _ => true;
  env_snyk := fun _ => CommandNotFound;
  json_loads := fun _ => None;
  env_endpoint := scripted []
|}.

Definition bad_path_env {R : Runtime} : Env := {|
  env_api_key := Some "key";
  env_input := "/srv/missing";
  env_isdir := fun _ => false;
  env_snyk := fun _ => CommandNotFound;
  json_loads := fun _ => None;
  env_endpoint := scripted []
|}.

Definition null_project {R : Runtime} : value :=
  VDict [("ok", VBool false); ("vulnerabilities", VNone)].

Definition error_report {R : Runtime} : value :=
  VDict [("ok", VBool false); ("error", VStr "Could not detect supported target files")].

(** A project result whose only record is fixable, and the scanner output
    it is decoded from; a scanner output that is a JSON text. *)
Definition upgradable_scan {R : Runtime} : value :=
  VDict [("ok", VBool false); ("vulnerabilities", VList [lodash])].

Definition upgradable_stdout : string :=
  "{" ++ dq ++
  "ok" ++ dq ++
  ": false, " ++ dq ++
  "vulnerabilities" ++ dq ++
  ": [{" ++ dq ++
  "packageName" ++ dq ++
  ": " ++ dq ++
  "lodash" ++ dq ++
  ", " ++ dq ++
  "version" ++ dq ++
  ": " ++ dq ++
  "4.0.0" ++ dq ++
  ", " ++ dq ++
  "title" ++ dq ++
  ": " ++ dq ++
  "Prototype Pollution" ++ dq ++
  ", " ++ dq ++
  "severity" ++ dq ++
  ": " ++ dq ++
  "high" ++ dq ++
  ", " ++ dq ++
  "upgradePath" ++ dq ++
  ": [false, " ++ dq ++
  "lodash@4.17.21" ++ dq ++
  "]}]}".

Definition text_stdout : string := dq ++ "Unauthorized" ++ dq.

(** * Properties *)

(** ** Lists and text *)

Lemma filter_complement_permutation (A : Type) (keep drop : A -> bool)
    (xs : list A) :
  (forall x, drop x = negb (keep x)) ->
  Permutation xs (filter keep xs ++ filter drop xs).
Proof.
  intros Hdrop. induction xs as [|x xs IH]; [constructor|].
  cbn [filter]. rewrite Hdrop.
  destruct (keep x); cbn [negb app].
  - apply perm_skip, IH.
  - apply Permutation_cons_app, IH.
Qed.

Lemma prefix_app (a s : string) :
  prefix a s = true -> exists post, s = a ++ post.
Proof.
  revert s; induction a as [|c a IH]; intros s H.
  - now exists s.
  - destruct s as [|d s]; simpl in H; [discriminate|].
    destruct (Ascii.ascii_dec c d) as [->|]; [|discriminate].
    destruct (IH _ H) as [post ->]. now exists post.
Qed.

Lemma has_infix_contains (sub s : string) :
  has_infix sub s = true -> contains s sub.
Proof.
  induction s as [|c s IH]; intros H; cbn [has_infix] in H.
  - apply orb_true_iff in H as [H|H]; [|discriminate].
    destruct (prefix_app _ _ H) as [post E]. now exists "", post.
  - apply orb_true_iff in H as [H|H].
    + destruct (prefix_app _ _ H) as [post E]. now exists "", post.
    + destruct (IH H) as (pre & post & ->). now exists (String c pre), post.
Qed.

(** ** The classifier *)

Section Classifier.
Context {R : Runtime}.

Lemma has_upgrade_record (vuln : value) :
  is_record vuln = true -> has_upgrade vuln = Ok (spec_fixable vuln).
Proof.
  destruct vuln as [| | | | |fields]; try discriminate.
  unfold is_record, has_upgrade, spec_fixable, upgrade_path, py_get, getitem_key.
  simpl.
  destruct (lookup "upgradePath" fields) as [[| | | |path|]|] eqn:E;
    simpl; try discriminate; intros _; try reflexivity.
  destruct path as [|p path]; reflexivity.
Qed.

Lemma classify_records (records fixable unfixable : list value) :
  forallb is_record records = true ->
  classify records fixable unfixable =
    Ok (fixable ++ filter spec_fixable records,
        unfixable ++ filter spec_unfixable records)%list.
Proof.
  revert fixable unfixable.
  induction records as [|vuln rest IH]; intros fixable unfixable H; simpl.
  - now rewrite !app_nil_r.
  - simpl in H. apply andb_true_iff in H as [Hv Hrest].
    rewrite (has_upgrade_record _ Hv). simpl. unfold spec_unfixable.
    destruct (spec_fixable vuln); simpl; rewrite (IH _ _ Hrest);
      now rewrite <- app_assoc.
Qed.

Lemma item_vulnerabilities_project (project : value) :
  is_project project = true ->
  item_vulnerabilities project = Ok (project_records project).
Proof.
  destruct project as [| | | | |fields]; try discriminate.
  unfold is_project, item_vulnerabilities, project_records, py_get. simpl.
  destruct (lookup "vulnerabilities" fields) as [[| | | |records|]|];
    simpl; try discriminate; reflexivity.
Qed.

Lemma rmap_item_vulnerabilities (projects : list value) :
  forallb is_project projects = true ->
  rmap item_vulnerabilities projects = Ok (map project_records projects).
Proof.
  induction projects as [|project rest IH]; simpl; intros H; [reflexivity|].
  apply andb_true_iff in H as [Hp Hrest].
  now rewrite (item_vulnerabilities_project _ Hp), (IH Hrest).
Qed.

Lemma forallb_concat (A : Type) (f : A -> bool) (ls : list (list A)) :
  forallb (forallb f) ls = true -> forallb f (concat ls) = true.
Proof.
  induction ls as [|l ls IH]; simpl; intros H; [reflexivity|].
  apply andb_true_iff in H as [Hl Hls].
  rewrite forallb_app, Hl. now apply IH.
Qed.

Lemma wf_projects_split (projects : list value) :
  forallb wf_project projects = true ->
  forallb is_project projects = true /\
  forallb is_record (concat (map project_records projects)) = true.
Proof.
  intros H. split.
  - rewrite forallb_forall in *. intros p Hp.
    specialize (H p Hp). unfold wf_project in H.
    now apply andb_true_iff in H as [H _].
  - apply forallb_concat. rewrite forallb_forall in *.
    intros l Hl. apply in_map_iff in Hl as (p & <- & Hp).
    specialize (H p Hp). unfold wf_project in H.
    now apply andb_true_iff in H as [_ H].
Qed.

(** On a scan result of the expected shape the classifier returns, and
    returns the records of the result filtered twice. *)
Lemma process_snyk_results_wf (snyk_data : value) :
  wf_scan snyk_data = true ->
  process_snyk_results snyk_data =
    Ok (filter spec_fixable (scan_records snyk_data),
        filter spec_unfixable (scan_records snyk_data)).
Proof.
  intros H. unfold process_snyk_results.
  destruct snyk_data as [| | | |projects|fields]; try discriminate.
  - reflexivity.
  - simpl in H. destruct (wf_projects_split _ H) as [Hp Hr].
    destruct projects as [|p ps]; [reflexivity|].
    change (negb (truthy (VList (p :: ps)))) with false. cbv iota.
    unfold vulnerabilities_of. rewrite (rmap_item_vulnerabilities _ Hp).
    cbn [rbind py_iter]. now rewrite (classify_records _ [] [] Hr).
  - simpl in H. unfold wf_project in H.
    apply andb_true_iff in H as [Hp Hr].
    destruct fields as [|kv fields]; [reflexivity|].
    change (negb (truthy (VDict (kv :: fields)))) with false. cbv iota.
    change (vulnerabilities <- vulnerabilities_of (VDict (kv :: fields)) ;;
            records <- py_iter vulnerabilities ;; classify records [] [])%result
      with (records <- item_vulnerabilities (VDict (kv :: fields)) ;;
            classify records [] [])%result.
    rewrite (item_vulnerabilities_project _ Hp). cbn [rbind].
    now rewrite (classify_records _ [] [] Hr).
Qed.

Lemma spec_fixable_iff (vuln : value) :
  spec_fixable vuln = true <->
  exists path, upgrade_path vuln = Some path /\ 1 < List.length path.
Proof.
  unfold spec_fixable. destruct (upgrade_path vuln) as [path|].
  - rewrite Nat.ltb_lt. split.
    + intros H. now exists path.
    + now intros (p & [= <-] & H).
  - split; [discriminate | now intros (p & [=] & _)].
Qed.

(** C1.  On every scan result, classification returns two sequences that
    partition the records of the result: each is the input filtered, so it
    keeps the input order; together they are a permutation of the input; a
    record of the input is in exactly one of them; and it is in the fixable
    one exactly when its upgrade path is present and has more than one
    element. *)
Theorem classification_partitions (snyk_data : value) :
  wf_scan snyk_data = true ->
  exists fixable unfixable,
    process_snyk_results snyk_data = Ok (fixable, unfixable) /\
    fixable = filter spec_fixable (scan_records snyk_data) /\
    unfixable = filter spec_unfixable (scan_records snyk_data) /\
    Permutation (scan_records snyk_data) (fixable ++ unfixable) /\
    (forall vuln, In vuln (scan_records snyk_data) ->
       (In vuln fixable /\ ~ In vuln unfixable) \/
       (In vuln unfixable /\ ~ In vuln fixable)) /\
    (forall vuln, In vuln (scan_records snyk_data) ->
       (In vuln fixable <->
        exists path, upgrade_path vuln = Some path /\ 1 < List.length path)).
Proof.
  intros H. eexists _, _. split; [apply (process_snyk_results_wf _ H)|].
  split; [reflexivity|]. split; [reflexivity|]. split; [|split].
  - apply filter_complement_permutation. reflexivity.
  - intros vuln Hin. unfold spec_unfixable.
    destruct (spec_fixable vuln) eqn:E; [left | right];
      (split; [apply filter_In; split; [assumption | now rewrite E] |]);
      intros [_ C]%filter_In; rewrite E in C; discriminate.
  - intros vuln Hin. rewrite <- spec_fixable_iff, filter_In. tauto.
Qed.

(** C4.  A scan result that is a list of project results is flattened into
    the concatenation of the projects' vulnerability lists, in project order
    and then list order, and that sequence is what the classification loop
    runs over; projects [[v1, v2]] and [[v3]] give [[v1, v2, v3]]. *)
Theorem monorepo_flattening :
  (forall projects : list value,
     forallb is_project projects = true ->
     vulnerabilities_of (VList projects) =
       Ok (VList (concat (map project_records projects))) /\
     process_snyk_results (VList projects) =
       classify (concat (map project_records projects)) [] []) /\
  (forall v1 v2 v3 : value,
     vulnerabilities_of
       (VList [VDict [("vulnerabilities", VList [v1; v2])];
               VDict [("vulnerabilities", VList [v3])]]) =
       Ok (VList [v1; v2; v3])).
Proof.
  split; [|reflexivity].
  intros projects H. split.
  - unfold vulnerabilities_of. now rewrite (rmap_item_vulnerabilities _ H).
  - unfold process_snyk_results.
    destruct projects as [|p ps]; [reflexivity|].
    change (negb (truthy (VList (p :: ps)))) with false. cbv iota.
    unfold vulnerabilities_of. now rewrite (rmap_item_vulnerabilities _ H).
Qed.

End Classifier.

(** ** The prompt builders *)

Section PromptBuilders.
Context {R : Runtime}.

Lemma upgrade_template_nonempty (details : string) :
  upgrade_template details <> "".
Proof. discriminate. Qed.

Lemma replacement_template_nonempty (details : string) :
  replacement_template details <> "".
Proof. discriminate. Qed.

Lemma truthy_nonempty (s : string) : s <> "" -> truthy (VStr s) = true.
Proof.
  intros H. simpl. destruct (String.eqb_spec s ""); [contradiction | reflexivity].
Qed.

(** Whatever either builder returns is a non-empty text. *)
Lemma create_upgrade_prompt_nonempty (records : list value) (prompt : string) :
  create_upgrade_prompt records = Ok prompt -> truthy (VStr prompt) = true.
Proof.
  unfold create_upgrade_prompt.
  destruct (rmap upgrade_detail records); simpl; [|discriminate].
  intros [= <-]. apply truthy_nonempty, upgrade_template_nonempty.
Qed.

Lemma create_replacement_prompt_nonempty (records : list value) (prompt : string) :
  create_replacement_prompt records = Ok prompt -> truthy (VStr prompt) = true.
Proof.
  unfold create_replacement_prompt.
  destruct (rmap replacement_detail records); simpl; [|discriminate].
  intros [= <-]. apply truthy_nonempty, replacement_template_nonempty.
Qed.

Lemma rmap_ext (A B : Type) (f g : A -> result B) (xs ys : list A)
    (rel : A -> A -> Prop) :
  (forall x y, rel x y -> f x = g y) ->
  Forall2 rel xs ys -> rmap f xs = rmap g ys.
Proof.
  intros Hfg H. induction H as [|x y xs ys Hxy _ IH]; simpl; [reflexivity|].
  now rewrite (Hfg _ _ Hxy), IH.
Qed.

Lemma rmap_pointwise (A B : Type) (f g : A -> result B) (xs : list A) :
  (forall x, f x = g x) -> rmap f xs = rmap g xs.
Proof.
  intros H. induction xs as [|x xs IH]; simpl; [reflexivity|].
  now rewrite H, IH.
Qed.

Lemma rmap_map (A B C : Type) (f : B -> result C) (g : A -> B) (xs : list A) :
  rmap f (map g xs) = rmap (fun x => f (g x)) xs.
Proof.
  induction xs as [|x xs IH]; simpl; [reflexivity | now rewrite IH].
Qed.

Lemma rmap_ok (A B : Type) (f : A -> result B) (xs : list A) :
  (forall x, In x xs -> exists y, f x = Ok y) ->
  exists ys, rmap f xs = Ok ys.
Proof.
  induction xs as [|x xs IH]; simpl; intros H; [now exists []|].
  destruct (H x (or_introl eq_refl)) as [y ->].
  destruct IH as [ys ->]; [intros; apply H; now right|].
  now exists (y :: ys).
Qed.

Lemma rmap_raises (A B : Type) (f : A -> result B) (xs : list A) (e : pyerr) :
  rmap f xs = Raise e -> exists x, In x xs /\ f x = Raise e.
Proof.
  induction xs as [|x xs IH]; simpl; [discriminate|].
  destruct (f x) as [y|e'] eqn:E; simpl.
  - destruct (rmap f xs); simpl; [discriminate|].
    intros [= <-]. destruct (IH eq_refl) as (x' & Hin & Hx'). eauto.
  - intros [= <-]. eauto.
Qed.

Lemma same_record_refl (vuln : value) : same_record vuln vuln.
Proof. destruct vuln; simpl; auto. Qed.

(** Equal sequences are sequences of records with the same fields. *)
Lemma same_records_refl (records : list value) :
  Forall2 same_record records records.
Proof.
  induction records; constructor; auto using same_record_refl.
Qed.

Lemma upgrade_detail_same (a b : value) :
  same_record a b -> upgrade_detail a = upgrade_detail b.
Proof.
  destruct a, b; simpl; try (intros E; now inversion E).
  intros H. unfold upgrade_detail, py_get. now rewrite !H.
Qed.

Lemma replacement_detail_same (a b : value) :
  same_record a b -> replacement_detail a = replacement_detail b.
Proof.
  destruct a, b; simpl; try (intros E; now inversion E).
  intros H. unfold replacement_detail, py_get. now rewrite !H.
Qed.

Lemma lookup_without_upgrade_path (key : string) (fields : list (string * value)) :
  String.eqb "upgradePath" key = false ->
  lookup key (filter (fun kv => negb (String.eqb "upgradePath" (fst kv))) fields) =
  lookup key fields.
Proof.
  intros Hkey. induction fields as [|[k v] fields IH]; [reflexivity|].
  cbn [filter fst].
  destruct (String.eqb_spec "upgradePath" k) as [<-|Hk]; cbn [negb lookup].
  - rewrite String.eqb_sym, Hkey. exact IH.
  - now rewrite IH.
Qed.

Lemma replacement_detail_without_upgrade_path (vuln : value) :
  replacement_detail (without_upgrade_path vuln) = replacement_detail vuln.
Proof.
  destruct vuln as [| | | | |fields]; try reflexivity.
  unfold replacement_detail, without_upgrade_path, py_get.
  now rewrite !lookup_without_upgrade_path.
Qed.

Lemma replacement_detail_error (vuln : value) (e : pyerr) :
  replacement_detail vuln = Raise e -> e = AttributeError.
Proof.
  destruct vuln; simpl; try discriminate; now intros [= <-].
Qed.

(** C2.  A record whose upgrade path is missing or has fewer than two
    elements makes [create_upgrade_prompt] raise [IndexError]: the default
    [['N/A']] has one element and is indexed at 1 like a path that is there,
    so no placeholder is substituted and no prompt is returned. *)
Theorem upgrade_prompt_short_path_raises (vuln : value) (rest : list value) :
  short_upgrade_path vuln = true ->
  create_upgrade_prompt (vuln :: rest) = Raise IndexError.
Proof.
  destruct vuln as [| | | | |fields]; try discriminate.
  unfold short_upgrade_path, create_upgrade_prompt. simpl.
  unfold upgrade_detail, py_get. cbn [rbind].
  destruct (lookup "upgradePath" fields) as [[| | | |path|]|];
    try discriminate; [|reflexivity].
  destruct path as [|p [|q path]]; [reflexivity | reflexivity | discriminate].
Qed.

(** C5.  The builders are functions of the records alone: two sequences of
    records with the same fields (equal sequences among them) give the same
    outcome, the same text byte for byte when one is returned; and running a
    builder leaves the trace of the run as it was. *)
Theorem prompt_builders_deterministic (first second : list value) :
  Forall2 same_record first second ->
  create_upgrade_prompt first = create_upgrade_prompt second /\
  create_replacement_prompt first = create_replacement_prompt second /\
  (forall trace : list event,
     lift (create_upgrade_prompt first) trace =
       (create_upgrade_prompt second, trace) /\
     lift (create_replacement_prompt first) trace =
       (create_replacement_prompt second, trace)).
Proof.
  intros H.
  assert (U : create_upgrade_prompt first = create_upgrade_prompt second).
  { unfold create_upgrade_prompt.
    now rewrite (rmap_ext _ _ upgrade_detail_same H). }
  assert (P : create_replacement_prompt first = create_replacement_prompt second).
  { unfold create_replacement_prompt.
    now rewrite (rmap_ext _ _ replacement_detail_same H). }
  repeat split; try assumption; unfold lift; congruence.
Qed.

(** C6.  For the single record old-lib / Prototype Pollution / critical with
    an empty upgrade path, [create_replacement_prompt] returns a prompt that
    contains the three texts; and on no input does it index an upgrade path:
    it never raises [IndexError], and its outcome is the same with every
    upgrade path taken out of the records. *)
Theorem replacement_prompt_old_lib :
  (exists prompt,
     create_replacement_prompt
       [VDict [("packageName", VStr "old-lib"); ("title", VStr "Prototype Pollution");
               ("severity", VStr "critical"); ("upgradePath", VList [])]] = Ok prompt /\
     contains prompt "old-lib" /\
     contains prompt "Prototype Pollution" /\
     contains prompt "critical") /\
  (forall records : list value,
     create_replacement_prompt records <> Raise IndexError) /\
  (forall records : list value,
     create_replacement_prompt (map without_upgrade_path records) =
     create_replacement_prompt records).
Proof.
  split; [|split].
  - eexists. split; [reflexivity|].
    repeat split; apply has_infix_contains; vm_compute; reflexivity.
  - intros records. unfold create_replacement_prompt.
    destruct (rmap replacement_detail records) as [details|e] eqn:E;
      simpl; [discriminate|].
    destruct (rmap_raises _ _ E) as (x & _ & Hx).
    rewrite (replacement_detail_error _ Hx). discriminate.
  - intros records. unfold create_replacement_prompt.
    rewrite rmap_map.
    now rewrite (@rmap_pointwise _ _
                   (fun x => replacement_detail (without_upgrade_path x))
                   replacement_detail records
                   replacement_detail_without_upgrade_path).
Qed.

(** C10.  [create_upgrade_prompt] does not return a text for every sequence
    of records: on a record without an upgrade path it raises [IndexError],
    so no prompt, empty or not, comes back. *)
Theorem upgrade_prompt_not_total :
  let records :=
    [VDict [("packageName", VStr "left-pad"); ("version", VStr "1.0.0");
            ("severity", VStr "low")]] in
  create_upgrade_prompt records = Raise IndexError /\
  ~ exists prompt, create_upgrade_prompt records = Ok prompt.
Proof.
  split; [reflexivity|]. intros [prompt H]. discriminate H.
Qed.

End PromptBuilders.

(** ** The AI query client *)

Section Client.
Context {R : Runtime}.
Variable env : Env.

Lemma remote_calls_snoc (trace : list event) (e : event) :
  remote_calls (trace ++ [e]) =
  remote_calls trace + (if is_generate e then 1 else 0).
Proof.
  unfold remote_calls. rewrite filter_app, length_app. simpl.
  now destruct (is_generate e).
Qed.

Lemma remote_calls_app (first second : list event) :
  remote_calls (first ++ second) = remote_calls first + remote_calls second.
Proof.
  unfold remote_calls. now rewrite filter_app, length_app.
Qed.

(** An empty or absent prompt: the fixed answer, and the trace untouched. *)
Lemma get_ai_response_falsy (prompt : value) (trace : list event) :
  truthy prompt = false ->
  get_ai_response env prompt trace = (Ok "Prompt could not be created.", trace).
Proof.
  intros H. unfold get_ai_response. now rewrite H.
Qed.

(** Every other prompt: the outcome and the trace, by how the first call and,
    after a rate limit, the second call end. *)
Lemma get_ai_response_truthy (prompt : value) (trace : list event) :
  truthy prompt = true ->
  get_ai_response env prompt trace =
    let asked :=
      [EPrint "🧠 Asking Gemini for insights...";
       EGenerate "gemini-1.5-flash-latest" prompt] in
    let retried :=
      (asked ++
       [EPrint "🟡 Rate limit hit. Waiting for 30 seconds before retrying...";
        ESleep 30;
        EPrint " yeniden deneme...";
        EGenerate "gemini-1.5-flash-latest" prompt])%list in
    match env_endpoint env (remote_calls trace) prompt with
    | Returned text => (Ok text, (trace ++ asked)%list)
    | Failed (ResourceExhausted _) =>
        match env_endpoint env (S (remote_calls trace)) prompt with
        | Returned text => (Ok text, (trace ++ retried)%list)
        | Failed e => (Ok ("❌ Error on retry: " ++ error_str e), (trace ++ retried)%list)
        end
    | Failed (OtherException msg) =>
        (Ok ("❌ An unexpected error occurred: " ++ msg), (trace ++ asked)%list)
    end.
Proof.
  intros H. unfold get_ai_response. rewrite H. cbn [negb].
  unfold bind, print, emit, generate_content, ret. cbv zeta.
  rewrite !remote_calls_snoc. cbn [is_generate].
  rewrite Nat.add_0_r.
  destruct (env_endpoint env (remote_calls trace) prompt) as [text|[msg|msg]].
  - now rewrite <- !app_assoc.
  - rewrite !remote_calls_snoc. cbn [is_generate].
    rewrite !Nat.add_0_r, Nat.add_1_r.
    destruct (env_endpoint env (S (remote_calls trace)) prompt) as [text|e];
      now rewrite <- !app_assoc.
  - now rewrite <- !app_assoc.
Qed.

(** The client always returns a text; it never raises. *)
Lemma get_ai_response_returns (prompt : value) (trace : list event) :
  exists text trace', get_ai_response env prompt trace = (Ok text, trace').
Proof.
  destruct (truthy prompt) eqn:H.
  - rewrite (get_ai_response_truthy _ _ H). cbv zeta.
    destruct (env_endpoint env (remote_calls trace) prompt) as [text|[msg|msg]];
      [eauto | | eauto].
    destruct (env_endpoint env (S (remote_calls trace)) prompt); eauto.
  - rewrite (get_ai_response_falsy _ _ H). eauto.
Qed.

(** A non-empty prompt always reaches the endpoint. *)
Lemma get_ai_response_asks (prompt : value) (trace : list event) :
  truthy prompt = true ->
  exists rest,
    snd (get_ai_response env prompt trace) =
    (trace ++ EPrint "🧠 Asking Gemini for insights..."
           :: EGenerate "gemini-1.5-flash-latest" prompt :: rest)%list.
Proof.
  intros H. rewrite (get_ai_response_truthy _ _ H). cbv zeta.
  destruct (env_endpoint env (remote_calls trace) prompt) as [text|[msg|msg]];
    [now exists [] | | now exists []].
  destruct (env_endpoint env (S (remote_calls trace)) prompt);
    eexists; reflexivity.
Qed.

Lemma get_ai_response_outcome (prompt : value) (trace : list event) :
  truthy prompt = true ->
  fst (get_ai_response env prompt trace) =
    Ok match env_endpoint env (remote_calls trace) prompt with
       | Returned text => text
       | Failed (ResourceExhausted _) =>
           match env_endpoint env (S (remote_calls trace)) prompt with
           | Returned text => text
           | Failed e => "❌ Error on retry: " ++ error_str e
           end
       | Failed (OtherException msg) => "❌ An unexpected error occurred: " ++ msg
       end.
Proof.
  intros H. rewrite (get_ai_response_truthy _ _ H). cbv zeta.
  destruct (env_endpoint env (remote_calls trace) prompt) as [text|[msg|msg]];
    try reflexivity.
  now destruct (env_endpoint env (S (remote_calls trace)) prompt).
Qed.

Lemma get_ai_response_calls (prompt : value) (trace : list event) :
  truthy prompt = true ->
  remote_calls (snd (get_ai_response env prompt trace)) =
    remote_calls trace +
    match env_endpoint env (remote_calls trace) prompt with
    | Failed (ResourceExhausted _) => 2
    | _ => 1
    end.
Proof.
  intros H. rewrite (get_ai_response_truthy _ _ H). cbv zeta.
  destruct (env_endpoint env (remote_calls trace) prompt) as [text|[msg|msg]];
    try (cbn [snd]; now rewrite remote_calls_app).
  destruct (env_endpoint env (S (remote_calls trace)) prompt);
    cbn [snd]; now rewrite remote_calls_app.
Qed.

(** C7.  On an absent prompt, on an empty prompt, and on any prompt that tests
    false, the client returns the fixed text "Prompt could not be created."
    and leaves the trace as it was: no remote call, and nothing else. *)
Theorem empty_prompt_short_circuits (trace : list event) :
  get_ai_response env VNone trace = (Ok "Prompt could not be created.", trace) /\
  get_ai_response env (VStr "") trace = (Ok "Prompt could not be created.", trace) /\
  (forall prompt : value,
     truthy prompt = false ->
     get_ai_response env prompt trace = (Ok "Prompt could not be created.", trace) /\
     remote_calls (snd (get_ai_response env prompt trace)) = remote_calls trace).
Proof.
  split; [reflexivity|]. split; [reflexivity|].
  intros prompt H. now rewrite (get_ai_response_falsy _ _ H).
Qed.

(** C3.  On a non-empty prompt the client makes at most two remote calls.
    A rate limit and then a success: the success text, two calls.  A rate
    limit and then any failure: the retry error text, two calls.  Any other
    failure of the first call: the error text, one call.  A success of the
    first call: its text, one call.  There is a second call exactly when the
    first one ends in the rate limit. *)
Theorem retry_only_on_rate_limit (prompt : value) (trace : list event) :
  truthy prompt = true ->
  let n := remote_calls trace in
  let outcome := fst (get_ai_response env prompt trace) in
  let calls := remote_calls (snd (get_ai_response env prompt trace)) - n in
  1 <= calls <= 2 /\
  (forall msg text,
     env_endpoint env n prompt = Failed (ResourceExhausted msg) ->
     env_endpoint env (S n) prompt = Returned text ->
     outcome = Ok text /\ calls = 2) /\
  (forall msg e,
     env_endpoint env n prompt = Failed (ResourceExhausted msg) ->
     env_endpoint env (S n) prompt = Failed e ->
     outcome = Ok ("❌ Error on retry: " ++ error_str e) /\ calls = 2) /\
  (forall msg,
     env_endpoint env n prompt = Failed (OtherException msg) ->
     outcome = Ok ("❌ An unexpected error occurred: " ++ msg) /\ calls = 1) /\
  (forall text,
     env_endpoint env n prompt = Returned text ->
     outcome = Ok text /\ calls = 1) /\
  (calls = 2 <-> exists msg, env_endpoint env n prompt = Failed (ResourceExhausted msg)).
Proof.
  intros H n outcome calls. subst n outcome calls.
  rewrite (get_ai_response_calls _ _ H), (get_ai_response_outcome _ _ H).
  rewrite Nat.add_comm, Nat.add_sub.
  destruct (env_endpoint env (remote_calls trace) prompt) as [text|[msg|msg]].
  - (* the first call succeeds *)
    split; [lia|]. do 3 (split; [discriminate|]). split.
    + intros text' [= <-]. now split.
    + split; [discriminate | now intros [msg [=]]].
  - (* the first call hits the rate limit *)
    split; [lia|]. split; [|split].
    + intros msg' text _ E2. now rewrite E2.
    + intros msg' e _ E2. now rewrite E2.
    + do 2 (split; [discriminate|]).
      split; [intros _; now exists msg | reflexivity].
  - (* the first call fails otherwise *)
    split; [lia|]. do 2 (split; [discriminate|]). split.
    + intros msg' [= <-]. now split.
    + split; [discriminate|]. split; [discriminate | now intros [msg' [=]]].
Qed.

End Client.

(** ** The orchestrator *)

Section Orchestrator.
Context {R : Runtime}.
Variable env : Env.

Lemma run_snyk_scan_delivers (snyk_data : value) :
  scan_delivered env snyk_data ->
  exists api_key,
    env_api_key env = Some api_key /\
    truthy (VStr api_key) = true /\
    truthy (VStr (env_input env)) = true /\
    env_isdir env (env_input env) = true /\
    run_snyk_scan env (env_input env)
      [EConfigure api_key;
       EInput "Please enter the full path to the project you want to scan: "] =
    (Ok snyk_data, scan_trace env).
Proof.
  intros (api_key & rc & out & err & Hkey & Hk & Hp & Hd & Hs & Hrc & Hj).
  exists api_key. repeat (split; [assumption|]).
  unfold run_snyk_scan, scan_trace. rewrite Hs, Hrc, Hj, Hkey. reflexivity.
Qed.

(** Past the guards, [main] is its second half run on the trace of the scan;
    on a scan result that tests false it ends there. *)
Lemma main_delivered (snyk_data : value) :
  scan_delivered env snyk_data ->
  main env [] =
    if truthy snyk_data then present_results env snyk_data (scan_trace env)
    else (Ok tt, scan_trace env).
Proof.
  intros H. destruct (run_snyk_scan_delivers H) as (k & Hkey & Hk & Hp & Hd & Hscan).
  unfold main. rewrite Hkey, Hk. cbn [negb].
  unfold bind at 1 2. unfold emit at 1 2. cbn [app]. cbv zeta.
  rewrite Hp, Hd. cbn [negb orb].
  unfold bind at 1. rewrite Hscan.
  now destruct (truthy snyk_data).
Qed.

Lemma present_results_none (snyk_data : value) (trace : list event) :
  process_snyk_results snyk_data = Ok ([], []) ->
  present_results env snyk_data trace =
    (Ok tt, (trace ++ [EPrint no_fixable_notice; EPrint all_fixable_notice])%list).
Proof.
  intros H. unfold present_results, lift, bind. rewrite H. cbn.
  unfold print, emit. now rewrite <- app_assoc.
Qed.

Lemma upgrade_detail_fixable (vuln : value) :
  spec_fixable vuln = true -> exists detail, upgrade_detail vuln = Ok detail.
Proof.
  intros H. apply spec_fixable_iff in H as (path & Hpath & Hlen).
  destruct vuln as [| | | | |fields]; try discriminate.
  unfold upgrade_path in Hpath. unfold upgrade_detail, py_get. cbn [rbind].
  destruct (lookup "upgradePath" fields) as [[| | | |p|]|]; try discriminate.
  injection Hpath as ->.
  destruct path as [|a [|b path]]; simpl in Hlen; try lia.
  eexists. reflexivity.
Qed.

Lemma replacement_detail_record (vuln : value) :
  is_record vuln = true -> exists detail, replacement_detail vuln = Ok detail.
Proof.
  destruct vuln; try discriminate. intros _. eexists. reflexivity.
Qed.

Lemma scan_records_wf (snyk_data : value) :
  wf_scan snyk_data = true -> forallb is_record (scan_records snyk_data) = true.
Proof.
  destruct snyk_data as [| | | |projects|fields]; try discriminate; simpl.
  - reflexivity.
  - intros H. now apply wf_projects_split.
  - unfold wf_project. now intros [_ H]%andb_true_iff.
Qed.

(** On a well-formed scan result both builders return for the sequences the
    classifier hands them. *)
Lemma classified_prompts (snyk_data : value) :
  wf_scan snyk_data = true ->
  exists upgrade_prompt replacement_prompt,
    create_upgrade_prompt (filter spec_fixable (scan_records snyk_data)) =
      Ok upgrade_prompt /\
    create_replacement_prompt (filter spec_unfixable (scan_records snyk_data)) =
      Ok replacement_prompt.
Proof.
  intros H. apply scan_records_wf in H. rewrite forallb_forall in H.
  unfold create_upgrade_prompt, create_replacement_prompt.
  destruct (@rmap_ok _ _ upgrade_detail (filter spec_fixable (scan_records snyk_data)))
    as [d1 ->].
  { intros x [_ Hx]%filter_In. now apply upgrade_detail_fixable. }
  destruct (@rmap_ok _ _ replacement_detail
              (filter spec_unfixable (scan_records snyk_data))) as [d2 ->].
  { intros x [Hx _]%filter_In. now apply replacement_detail_record, H. }
  eexists _, _. split; reflexivity.
Qed.

Lemma truthy_list (A : list value) : A <> [] -> truthy (VList A) = true.
Proof. now destruct A. Qed.

(** Both queries of the second half of [main], whatever the first one
    returns. *)
Lemma present_results_both (snyk_data : value) (fixable unfixable : list value)
    (upgrade_prompt replacement_prompt : string) (trace : list event) :
  process_snyk_results snyk_data = Ok (fixable, unfixable) ->
  fixable <> [] -> unfixable <> [] ->
  create_upgrade_prompt fixable = Ok upgrade_prompt ->
  create_replacement_prompt unfixable = Ok replacement_prompt ->
  exists upgrade_plan trace1 replacement_suggestions trace2,
    get_ai_response env (VStr upgrade_prompt) trace = (Ok upgrade_plan, trace1) /\
    get_ai_response env (VStr replacement_prompt)
      (trace1 ++ upgrade_banner ++ [EPrint upgrade_plan])%list =
      (Ok replacement_suggestions, trace2) /\
    present_results env snyk_data trace =
      (Ok tt, (trace2 ++ replacement_banner ++ [EPrint replacement_suggestions])%list).
Proof.
  intros Hc Hf Hu Hp1 Hp2.
  destruct (get_ai_response_returns env (VStr upgrade_prompt) trace)
    as (plan & t1 & E1).
  destruct (get_ai_response_returns env (VStr replacement_prompt)
              (t1 ++ upgrade_banner ++ [EPrint plan])%list) as (sugg & t2 & E2).
  exists plan, t1, sugg, t2. split; [assumption|]. split; [assumption|].
  unfold present_results, lift. unfold bind at 1. rewrite Hc. cbn [fst snd].
  rewrite (truthy_list Hf), (truthy_list Hu), Hp1, Hp2.
  unfold bind at 1. unfold bind at 1. unfold bind at 1. rewrite E1.
  unfold bind, print, emit.
  replace ((((t1 ++ [EPrint (nl ++ str_mul "=" 50)]) ++
             [EPrint "🚀 Your AI-Generated Dependency Upgrade Plan 🚀"]) ++
            [EPrint (str_mul "=" 50 ++ nl)]) ++ [EPrint plan])%list
    with (t1 ++ upgrade_banner ++ [EPrint plan])%list
    by (unfold upgrade_banner; now rewrite <- !app_assoc).
  rewrite E2. unfold replacement_banner. now rewrite <- !app_assoc.
Qed.

(** C8 (as amended).  A scan result with no vulnerability is classified into
    two empty sequences, and a run that gets it from the scanner makes no
    remote call.  When the result is not empty as a value (a project with an
    empty vulnerability list, say) [main] prints both notices and nothing
    else; when it is empty as a value (null, [{}], [[]]) [main] stops after
    the scan, before the classification, and prints neither. *)
Theorem empty_scan_makes_no_query (snyk_data : value) :
  wf_scan snyk_data = true ->
  scan_records snyk_data = [] ->
  process_snyk_results snyk_data = Ok ([], []) /\
  (scan_delivered env snyk_data ->
   remote_calls (snd (main env [])) = 0 /\
   (truthy snyk_data = true ->
    main env [] =
      (Ok tt, (scan_trace env ++
               [EPrint no_fixable_notice; EPrint all_fixable_notice])%list)) /\
   (truthy snyk_data = false -> main env [] = (Ok tt, scan_trace env))).
Proof.
  intros Hwf Hrec.
  assert (Hc : process_snyk_results snyk_data = Ok ([], [])).
  { rewrite (process_snyk_results_wf _ Hwf), Hrec. reflexivity. }
  split; [assumption|]. intros Hd.
  rewrite (main_delivered Hd), (present_results_none _ _ Hc).
  destruct (truthy snyk_data); repeat split; try discriminate; reflexivity.
Qed.

(** C9.  The client returns a text in every case, so nothing the endpoint
    does propagates as an exception: a failure of the first call other than
    the rate limit, and any failure of the retry, come back as an error text.
    In a run with both fixable and unfixable records, [main] therefore makes
    both queries, whatever the first one returned, and prints what each
    returned right after its banner. *)
Theorem ai_failures_are_reported :
  (forall (prompt : value) (trace : list event),
     exists text trace', get_ai_response env prompt trace = (Ok text, trace')) /\
  (forall (prompt : value) (trace : list event) (msg : string),
     truthy prompt = true ->
     env_endpoint env (remote_calls trace) prompt = Failed (OtherException msg) ->
     fst (get_ai_response env prompt trace) =
       Ok ("❌ An unexpected error occurred: " ++ msg)) /\
  (forall (prompt : value) (trace : list event) (msg : string) (e : api_error),
     truthy prompt = true ->
     env_endpoint env (remote_calls trace) prompt = Failed (ResourceExhausted msg) ->
     env_endpoint env (S (remote_calls trace)) prompt = Failed e ->
     fst (get_ai_response env prompt trace) =
       Ok ("❌ Error on retry: " ++ error_str e)) /\
  (forall snyk_data : value,
     scan_delivered env snyk_data ->
     wf_scan snyk_data = true ->
     filter spec_fixable (scan_records snyk_data) <> [] ->
     filter spec_unfixable (scan_records snyk_data) <> [] ->
     exists upgrade_prompt replacement_prompt
            upgrade_plan trace1 replacement_suggestions trace2,
       create_upgrade_prompt (filter spec_fixable (scan_records snyk_data)) =
         Ok upgrade_prompt /\
       create_replacement_prompt (filter spec_unfixable (scan_records snyk_data)) =
         Ok replacement_prompt /\
       get_ai_response env (VStr upgrade_prompt) (scan_trace env) =
         (Ok upgrade_plan, trace1) /\
       get_ai_response env (VStr replacement_prompt)
         (trace1 ++ upgrade_banner ++ [EPrint upgrade_plan])%list =
         (Ok replacement_suggestions, trace2) /\
       main env [] =
         (Ok tt, (trace2 ++ replacement_banner ++
                  [EPrint replacement_suggestions])%list) /\
       In (EGenerate "gemini-1.5-flash-latest" (VStr upgrade_prompt)) trace1 /\
       In (EGenerate "gemini-1.5-flash-latest" (VStr replacement_prompt)) trace2).
Proof.
  split; [apply get_ai_response_returns|]. split; [|split].
  - intros prompt trace msg H E.
    rewrite (get_ai_response_truthy _ _ _ H). cbv zeta. now rewrite E.
  - intros prompt trace msg e H E1 E2.
    rewrite (get_ai_response_truthy _ _ _ H). cbv zeta. now rewrite E1, E2.
  - intros snyk_data Hd Hwf Hf Hu.
    destruct (classified_prompts _ Hwf) as (p1 & p2 & Hp1 & Hp2).
    pose proof (process_snyk_results_wf _ Hwf) as Hc.
    destruct (present_results_both snyk_data (scan_trace env) Hc Hf Hu Hp1 Hp2)
      as (plan & t1 & sugg & t2 & E1 & E2 & Hm).
    exists p1, p2, plan, t1, sugg, t2.
    repeat (split; [assumption|]).
    split; [|split].
    + rewrite (main_delivered Hd).
      destruct (truthy snyk_data) eqn:Ht; [assumption|].
      exfalso. unfold process_snyk_results in Hc. rewrite Ht in Hc.
      injection Hc as Hc _. now apply Hf.
    + destruct (get_ai_response_asks env (VStr p1) (scan_trace env)
                  (create_upgrade_prompt_nonempty _ Hp1)) as [rest Hr].
      rewrite E1 in Hr. cbn [snd] in Hr. rewrite Hr.
      apply in_or_app. right. right. now left.
    + destruct (get_ai_response_asks env (VStr p2)
                  (t1 ++ upgrade_banner ++ [EPrint plan])%list
                  (create_replacement_prompt_nonempty _ Hp2)) as [rest Hr].
      rewrite E2 in Hr. cbn [snd] in Hr. rewrite Hr.
      apply in_or_app. right. right. now left.
Qed.

(** A prompt that a builder returned never takes the short-circuit branch of
    the client: the endpoint is called. *)
Lemma built_prompt_is_sent (records : list value) (prompt : string)
    (trace : list event) :
  create_upgrade_prompt records = Ok prompt \/
  create_replacement_prompt records = Ok prompt ->
  exists rest,
    snd (get_ai_response env (VStr prompt) trace) =
    (trace ++ EPrint "🧠 Asking Gemini for insights..."
           :: EGenerate "gemini-1.5-flash-latest" (VStr prompt) :: rest)%list.
Proof.
  intros [H|H]; apply get_ai_response_asks.
  - exact (create_upgrade_prompt_nonempty _ H).
  - exact (create_replacement_prompt_nonempty _ H).
Qed.

End Orchestrator.

(** ** The scan invoker *)

Section ScanInvoker.
Context {R : Runtime}.
Variable env : Env.

Lemma run_snyk_scan_unfold (project_path : string) (trace : list event) :
  run_snyk_scan env project_path trace =
    match env_snyk env project_path with
    | Completed returncode stdout stderr =>
        if negb (Z.eqb returncode 0) && negb (truthy (VStr stdout)) then
          (Ok VNone,
           (trace ++ scan_started project_path ++
            [EPrint ("❌ Snyk command failed with an error:" ++ nl ++ stderr)])%list)
        else
          match json_loads env stdout with
          | Some parsed => (Ok parsed, (trace ++ scan_started project_path)%list)
          | None =>
              (Ok VNone,
               (trace ++ scan_started project_path ++
                [EPrint "❌ Error: Failed to decode Snyk's JSON output. Is the project configured correctly?"])%list)
          end
    | CommandNotFound =>
        (Ok VNone,
         (trace ++ scan_started project_path ++
          [EPrint "❌ Error: 'snyk' command not found. Is the Snyk CLI installed and in your PATH?"])%list)
    end.
Proof.
  unfold run_snyk_scan, scan_started, bind, print, emit, ret.
  destruct (env_snyk env project_path) as [|returncode stdout stderr].
  - now rewrite <- !app_assoc.
  - destruct (negb (Z.eqb returncode 0) && negb (truthy (VStr stdout)))%bool.
    + now rewrite <- !app_assoc.
    + destruct (json_loads env stdout); now rewrite <- !app_assoc.
Qed.

(** X1.  A scanner process that printed something parseable is a successful
    scan whatever its exit code: the parsed output is returned and nothing but
    the progress line is printed. *)
Theorem scan_tolerates_exit_code (project_path : string) (trace : list event)
    (returncode : Z) (stdout stderr : string) (parsed : value) :
  env_snyk env project_path = Completed returncode stdout stderr ->
  stdout <> "" ->
  json_loads env stdout = Some parsed ->
  run_snyk_scan env project_path trace =
    (Ok parsed, (trace ++ scan_started project_path)%list).
Proof.
  intros Hrun Hout Hparse. rewrite run_snyk_scan_unfold, Hrun.
  rewrite (truthy_nonempty Hout), andb_false_r. now rewrite Hparse.
Qed.

(** X2.  The three ways a scan fails, each with its own message and the
    result None: the command is not found; the process exits non-zero
    without output, and its diagnostics are shown; the output cannot be
    decoded.  A process that exits with 0 and prints nothing is not reported
    as a failed command: its empty output goes to the decoder. *)
Theorem scan_failure_modes (project_path : string) (trace : list event) :
  (env_snyk env project_path = CommandNotFound ->
   run_snyk_scan env project_path trace =
     (Ok VNone,
      (trace ++ scan_started project_path ++
       [EPrint "❌ Error: 'snyk' command not found. Is the Snyk CLI installed and in your PATH?"])%list)) /\
  (forall returncode stderr,
     returncode <> 0%Z ->
     env_snyk env project_path = Completed returncode "" stderr ->
     run_snyk_scan env project_path trace =
       (Ok VNone,
        (trace ++ scan_started project_path ++
         [EPrint ("❌ Snyk command failed with an error:" ++ nl ++ stderr)])%list)) /\
  (forall returncode stdout stderr,
     env_snyk env project_path = Completed returncode stdout stderr ->
     returncode = 0%Z \/ stdout <> "" ->
     json_loads env stdout = None ->
     run_snyk_scan env project_path trace =
       (Ok VNone,
        (trace ++ scan_started project_path ++
         [EPrint "❌ Error: Failed to decode Snyk's JSON output. Is the project configured correctly?"])%list)).
Proof.
  split; [|split].
  - intros H. now rewrite run_snyk_scan_unfold, H.
  - intros returncode stderr Hrc H. rewrite run_snyk_scan_unfold, H.
    destruct (Z.eqb_spec returncode 0); [contradiction | reflexivity].
  - intros returncode stdout stderr H Hok Hparse.
    rewrite run_snyk_scan_unfold, H.
    replace (negb (Z.eqb returncode 0) && negb (truthy (VStr stdout)))%bool
      with false; [now rewrite Hparse|].
    destruct Hok as [-> | Hout]; [reflexivity|].
    now rewrite (truthy_nonempty Hout), andb_false_r.
Qed.

End ScanInvoker.

(** ** The guards of the orchestrator *)

Section Guards.
Context {R : Runtime}.
Variable env : Env.

(** [main] by its guards, down to the call of its second half. *)
Lemma main_unfold (trace : list event) :
  main env trace =
    match env_api_key env with
    | None =>
        (Ok tt, (trace ++ [EPrint "🚨 Please set the GOOGLE_API_KEY in a .env file."])%list)
    | Some api_key =>
        if negb (truthy (VStr api_key)) then
          (Ok tt, (trace ++ [EPrint "🚨 Please set the GOOGLE_API_KEY in a .env file."])%list)
        else if negb (truthy (VStr (env_input env)))
                || negb (env_isdir env (env_input env)) then
          (Ok tt,
           (trace ++ asked_for_path api_key ++
            [EPrint "❌ Invalid path entered. Please provide a valid directory. Exiting."])%list)
        else
          match run_snyk_scan env (env_input env) (trace ++ asked_for_path api_key)%list with
          | (Ok snyk_results, scanned) =>
              if truthy snyk_results then present_results env snyk_results scanned
              else (Ok tt, scanned)
          | (Raise e, scanned) => (Raise e, scanned)
          end
    end.
Proof.
  unfold main, asked_for_path.
  destruct (env_api_key env) as [api_key|]; [|reflexivity].
  destruct (negb (truthy (VStr api_key))); [reflexivity|].
  unfold bind at 1 2. unfold emit at 1 2. cbv zeta.
  destruct (negb (truthy (VStr (env_input env)))
            || negb (env_isdir env (env_input env)))%bool.
  - unfold print, emit. now rewrite <- !app_assoc.
  - unfold bind at 1. rewrite <- !app_assoc. cbn [app].
    destruct (run_snyk_scan env (env_input env)
                (trace ++ [EConfigure api_key;
                           EInput "Please enter the full path to the project you want to scan: "])%list)
      as [[snyk_results|e] scanned]; [|reflexivity].
    now destruct (truthy snyk_results).
Qed.

(** X3.  Without a credential, or with an empty one, [main] prints the
    request to set it and does nothing else: the client is not configured,
    no path is asked for, nothing is scanned. *)
Theorem main_requires_credential (trace : list event) :
  env_api_key env = None \/ env_api_key env = Some "" ->
  main env trace =
    (Ok tt, (trace ++ [EPrint "🚨 Please set the GOOGLE_API_KEY in a .env file."])%list).
Proof.
  intros [H|H]; rewrite main_unfold, H; reflexivity.
Qed.

(** X4.  With a credential, a path that is empty or is not a directory ends
    [main] right after the question: the message is printed and the scanner
    is never launched. *)
Theorem main_rejects_invalid_path (trace : list event) (api_key : string) :
  env_api_key env = Some api_key ->
  api_key <> "" ->
  env_input env = "" \/ env_isdir env (env_input env) = false ->
  main env trace =
    (Ok tt,
     (trace ++ asked_for_path api_key ++
      [EPrint "❌ Invalid path entered. Please provide a valid directory. Exiting."])%list) /\
  launches (snd (main env trace)) = launches trace.
Proof.
  intros Hkey Hk Hpath.
  assert (E : main env trace =
    (Ok tt,
     (trace ++ asked_for_path api_key ++
      [EPrint "❌ Invalid path entered. Please provide a valid directory. Exiting."])%list)).
  { rewrite main_unfold, Hkey, (truthy_nonempty Hk). cbn [negb].
    destruct Hpath as [-> | ->]; [reflexivity|].
    now rewrite orb_true_r. }
  split; [exact E|]. rewrite E. cbn [snd]. unfold launches.
  rewrite filter_app, length_app. cbn. lia.
Qed.


End Guards.

(** ** What a run spends *)

Section Budget.
Context {R : Runtime}.

Lemma launches_app (first second : list event) :
  launches (first ++ second) = launches first + launches second.
Proof.
  unfold launches. now rewrite filter_app, length_app.
Qed.

Lemma seconds_slept_app (first second : list event) :
  seconds_slept (first ++ second) =
  (seconds_slept first + seconds_slept second)%Z.
Proof.
  induction first as [|e first IH]; [reflexivity|].
  destruct e; cbn [app seconds_slept]; rewrite IH; lia.
Qed.

Lemma spends_silent (A : Type) (m : M A) (added : list event) :
  (forall trace, snd (m trace) = (trace ++ added)%list) ->
  remote_calls added = 0 -> launches added = 0 -> seconds_slept added = 0%Z ->
  spends m 0 0 0.
Proof.
  intros H Hc Hr Hs trace. exists added. rewrite H, Hc, Hr, Hs.
  repeat split; lia.
Qed.

Lemma spends_ret (A : Type) (a : A) : spends (ret a) 0 0 0.
Proof.
  apply spends_silent with (added := []); try reflexivity.
  intros trace. cbn. now rewrite app_nil_r.
Qed.

Lemma spends_lift (A : Type) (r : result A) : spends (lift r) 0 0 0.
Proof.
  apply spends_silent with (added := []); try reflexivity.
  intros trace. cbn. now rewrite app_nil_r.
Qed.

Lemma spends_print (line : string) : spends (print line) 0 0 0.
Proof.
  now apply spends_silent with (added := [EPrint line]).
Qed.

Lemma spends_weaken (A : Type) (m : M A) (calls calls' runs runs' : nat)
    (seconds seconds' : Z) :
  spends m calls runs seconds ->
  calls <= calls' -> runs <= runs' -> (seconds <= seconds')%Z ->
  spends m calls' runs' seconds'.
Proof.
  intros H Hc Hr Hs trace. destruct (H trace) as (added & E & ? & ? & ?).
  exists added. repeat split; try assumption; lia.
Qed.

Lemma spends_bind (A B : Type) (m : M A) (k : A -> M B)
    (calls1 calls2 runs1 runs2 : nat) (seconds1 seconds2 : Z) :
  spends m calls1 runs1 seconds1 ->
  (forall a, spends (k a) calls2 runs2 seconds2) ->
  (0 <= seconds2)%Z ->
  spends (bind m k) (calls1 + calls2) (runs1 + runs2) (seconds1 + seconds2).
Proof.
  intros Hm Hk H2 trace. unfold bind.
  destruct (Hm trace) as (added1 & E1 & Hc1 & Hr1 & Hs1).
  destruct (m trace) as [[a|e] trace1]; cbn [snd] in E1; subst trace1.
  - destruct (Hk a (trace ++ added1)%list) as (added2 & E2 & Hc2 & Hr2 & Hs2).
    exists (added1 ++ added2)%list.
    rewrite E2, app_assoc, remote_calls_app, launches_app, seconds_slept_app.
    repeat split; lia.
  - exists added1. cbn [snd]. repeat split; lia.
Qed.

Lemma spends_get_ai_response (env : Env) (prompt : value) :
  spends (get_ai_response env prompt) 2 0 30.
Proof.
  intros trace. destruct (truthy prompt) eqn:H.
  - rewrite (get_ai_response_truthy _ _ _ H). cbv zeta.
    destruct (env_endpoint env (remote_calls trace) prompt) as [text|[msg|msg]];
      [| destruct (env_endpoint env (S (remote_calls trace)) prompt) |];
      cbn [snd]; eexists; (split; [reflexivity|]); cbn; repeat split; lia.
  - rewrite (get_ai_response_falsy _ _ _ H). exists []. cbn [snd].
    rewrite app_nil_r. cbn. repeat split; lia.
Qed.

Lemma spends_run_snyk_scan (env : Env) (project_path : string) :
  spends (run_snyk_scan env project_path) 0 1 0.
Proof.
  intros trace. rewrite run_snyk_scan_unfold.
  destruct (env_snyk env project_path) as [|returncode stdout stderr];
    [| destruct (negb (Z.eqb returncode 0) && negb (truthy (VStr stdout)))%bool;
       [| destruct (json_loads env stdout)]];
    cbn [snd]; eexists; (split; [reflexivity|]); cbn; repeat split; lia.
Qed.

Ltac spend :=
  repeat first
    [ apply spends_ret
    | apply spends_lift
    | apply spends_print
    | apply spends_get_ai_response
    | apply spends_run_snyk_scan
    | eapply spends_bind; [|intros|] ].

Lemma spends_present_results (env : Env) (snyk_results : value) :
  spends (present_results env snyk_results) 4 0 60.
Proof.
  unfold present_results.
  apply spends_weaken with (calls := 0 + (2 + 2)) (runs := 0 + (0 + 0))
                           (seconds := (0 + (30 + 30))%Z); try lia.
  apply spends_bind; [apply spends_lift | | lia]. intros classified. cbv zeta.
  apply spends_bind; [| intros _ | lia].
  - destruct (truthy (VList (fst classified)));
      (eapply spends_weaken; [spend | | | ]); cbn; lia.
  - destruct (truthy (VList (snd classified)));
      (eapply spends_weaken; [spend | | | ]); cbn; lia.
Qed.

Lemma spends_main (env : Env) : spends (main env) 4 1 60.
Proof.
  intros trace. rewrite main_unfold.
  destruct (env_api_key env) as [api_key|].
  2: { eexists. cbn [snd]. split; [reflexivity|]. cbn. repeat split; lia. }
  destruct (negb (truthy (VStr api_key))).
  { eexists. cbn [snd]. split; [reflexivity|]. cbn. repeat split; lia. }
  destruct (negb (truthy (VStr (env_input env)))
            || negb (env_isdir env (env_input env)))%bool.
  { eexists. cbn [snd]. split; [reflexivity|]. cbn. repeat split; lia. }
  destruct (spends_run_snyk_scan env (env_input env)
              (trace ++ asked_for_path api_key)%list)
    as (scan & E & Hc & Hr & Hs).
  destruct (run_snyk_scan env (env_input env) (trace ++ asked_for_path api_key)%list)
    as [[snyk_results|e] scanned]; cbn [snd] in E; subst scanned.
  - destruct (truthy snyk_results).
    + destruct (spends_present_results env snyk_results
                  ((trace ++ asked_for_path api_key) ++ scan)%list)
        as (added & E & Hc' & Hr' & Hs').
      exists (asked_for_path api_key ++ scan ++ added)%list.
      rewrite E, <- !app_assoc.
      rewrite !remote_calls_app, !launches_app, !seconds_slept_app.
      cbn. repeat split; lia.
    + exists (asked_for_path api_key ++ scan)%list. cbn [snd].
      rewrite <- !app_assoc.
      rewrite !remote_calls_app, !launches_app, !seconds_slept_app.
      cbn. repeat split; lia.
  - exists (asked_for_path api_key ++ scan)%list. cbn [snd].
    rewrite <- !app_assoc.
    rewrite !remote_calls_app, !launches_app, !seconds_slept_app.
    cbn. repeat split; lia.
Qed.

(** X6.  Whatever the environment answers, a run of [main] makes at most
    four remote calls, launches the scanner at most once, and sleeps at most
    sixty seconds. *)
Theorem main_budget (env : Env) :
  remote_calls (snd (main env [])) <= 4 /\
  launches (snd (main env [])) <= 1 /\
  (0 <= seconds_slept (snd (main env [])) <= 60)%Z.
Proof.
  destruct (spends_main env []) as (added & E & Hc & Hr & Hs).
  rewrite E. cbn [app]. repeat split; lia.
Qed.

End Budget.

(** ** What the prompts show *)

Section PromptContents.
Context {R : Runtime}.

Lemma string_app_assoc (a b c : string) : (a ++ b) ++ c = a ++ b ++ c.
Proof.
  induction a as [|x a IH]; [reflexivity|]. cbn. now rewrite IH.
Qed.

Lemma contains_self (s : string) : contains s s.
Proof.
  exists "", "". cbn. induction s as [|c s IH]; [reflexivity|].
  cbn. now rewrite <- IH.
Qed.

Lemma contains_after (a b sub : string) : contains b sub -> contains (a ++ b) sub.
Proof.
  intros (pre & post & ->). exists (a ++ pre), post.
  now rewrite string_app_assoc.
Qed.

Lemma contains_before (a b sub : string) : contains a sub -> contains (a ++ b) sub.
Proof.
  intros (pre & post & ->). exists pre, (post ++ b).
  now rewrite !string_app_assoc.
Qed.

Lemma join_contains (sep part : string) (parts : list string) :
  In part parts -> contains (join sep parts) part.
Proof.
  induction parts as [|p parts IH]; [contradiction|].
  intros [<- | Hin].
  - destruct parts; [apply contains_self | apply contains_before, contains_self].
  - specialize (IH Hin). destruct parts as [|q parts]; [contradiction|].
    change (join sep (p :: q :: parts)) with (p ++ sep ++ join sep (q :: parts)).
    now apply contains_after, contains_after.
Qed.

Lemma upgrade_template_contains (details sub : string) :
  contains details sub -> contains (upgrade_template details) sub.
Proof.
  intros H. unfold upgrade_template.
  do 7 apply contains_after. now apply contains_before.
Qed.

Lemma replacement_template_contains (details sub : string) :
  contains details sub -> contains (replacement_template details) sub.
Proof.
  intros H. unfold replacement_template.
  do 11 apply contains_after. now apply contains_before.
Qed.

Lemma rmap_in (A B : Type) (f : A -> result B) (xs : list A) (ys : list B) (x : A) :
  rmap f xs = Ok ys -> In x xs -> exists y, f x = Ok y /\ In y ys.
Proof.
  revert ys. induction xs as [|a xs IH]; intros ys H Hin; [contradiction|].
  cbn in H. destruct (f a) as [b|] eqn:Ea; [|discriminate].
  destruct (rmap f xs) as [bs|]; [|discriminate].
  injection H as <-. destruct Hin as [<- | Hin].
  - exists b. split; [assumption | now left].
  - destruct (IH bs eq_refl Hin) as (y & Hy & Hiny).
    exists y. split; [assumption | now right].
Qed.

Lemma replacement_detail_dict (fields : list (string * value)) :
  replacement_detail (VDict fields) = Ok (replacement_block fields).
Proof. reflexivity. Qed.

Lemma replacement_detail_not_dict (vuln : value) :
  is_dict vuln = false -> replacement_detail vuln = Raise AttributeError.
Proof. now destruct vuln. Qed.

Lemma rmap_replacement_detail (records : list value) :
  rmap replacement_detail records =
    if forallb is_dict records
    then Ok (map (fun vuln =>
                    match vuln with
                    | VDict fields => replacement_block fields
                    | _ => ""
                    end) records)
    else Raise AttributeError.
Proof.
  induction records as [|vuln records IH]; [reflexivity|].
  cbn [rmap forallb]. rewrite IH.
  destruct vuln; try reflexivity.
  cbn [is_dict andb]. rewrite replacement_detail_dict.
  now destruct (forallb is_dict records).
Qed.

(** X7.  When [create_upgrade_prompt] returns a prompt, every record it was
    given is a dict, and for every record whose upgrade path is a list the
    prompt contains the record's block: its package name, its version, the
    second element of the path as the suggested upgrade, and its severity,
    with None for a missing field. *)
Theorem upgrade_prompt_shows_every_record (records : list value) (prompt : string) :
  create_upgrade_prompt records = Ok prompt ->
  (forall vuln, In vuln records -> is_dict vuln = true) /\
  (forall fields path,
     In (VDict fields) records ->
     lookup "upgradePath" fields = Some (VList path) ->
     exists upgrade,
       nth_error path 1 = Some upgrade /\
       contains prompt (upgrade_block fields upgrade)).
Proof.
  unfold create_upgrade_prompt.
  destruct (rmap upgrade_detail records) as [details|] eqn:E; [|discriminate].
  cbn [rbind]. intros [= <-]. split.
  - intros vuln Hin.
    destruct (@rmap_in _ _ upgrade_detail records details vuln E Hin)
      as (detail & Hd & _).
    destruct vuln; try discriminate Hd. reflexivity.
  - intros fields path Hin Hpath.
    destruct (@rmap_in _ _ upgrade_detail records details (VDict fields) E Hin)
      as (detail & Hd & Hdetail).
    unfold upgrade_detail, py_get in Hd. cbn [rbind] in Hd.
    rewrite Hpath in Hd. cbn [getitem_index] in Hd.
    destruct (nth_error path 1) as [upgrade|]; [|discriminate].
    cbn [rbind] in Hd. injection Hd as <-.
    exists upgrade. split; [reflexivity|].
    apply upgrade_template_contains. now apply join_contains.
Qed.

(** X8.  [create_replacement_prompt] returns exactly when every record it
    is given is a dict, and raises [AttributeError] otherwise; the prompt it
    returns contains the block of every record: package name, title and
    severity, with None for a missing field. *)
Theorem replacement_prompt_shows_every_record (records : list value) :
  ((exists prompt, create_replacement_prompt records = Ok prompt) <->
   forallb is_dict records = true) /\
  (forallb is_dict records = false ->
   create_replacement_prompt records = Raise AttributeError) /\
  (forall prompt fields,
     create_replacement_prompt records = Ok prompt ->
     In (VDict fields) records ->
     contains prompt (replacement_block fields)).
Proof.
  unfold create_replacement_prompt. rewrite rmap_replacement_detail.
  destruct (forallb is_dict records); cbn [rbind].
  - split; [split; [reflexivity | eauto]|]. split; [discriminate|].
    intros prompt fields [= <-] Hin.
    apply replacement_template_contains, join_contains.
    apply in_map_iff. now exists (VDict fields).
  - split; [split; [now intros [? [=]] | discriminate]|].
    split; [reflexivity | discriminate].
Qed.

End PromptContents.

(** ** The classifier on other inputs *)

Section ClassifierEdges.
Context {R : Runtime}.

Lemma filter_concat_map (A : Type) (keep : A -> bool) (groups : list (list A)) :
  filter keep (concat groups) = concat (map (filter keep) groups).
Proof.
  induction groups as [|g groups IH]; [reflexivity|].
  cbn [concat map]. now rewrite filter_app, IH.
Qed.

Lemma rmap_stops (A B : Type) (f : A -> result B) (before after : list A)
    (bad : A) (ys : list B) (e : pyerr) :
  rmap f before = Ok ys -> f bad = Raise e ->
  rmap f (before ++ bad :: after) = Raise e.
Proof.
  revert ys. induction before as [|a before IH]; intros ys Hb Hbad; cbn.
  - now rewrite Hbad.
  - cbn in Hb. destruct (f a); [|discriminate]. cbn [rbind] in *.
    destruct (rmap f before) as [zs|]; [|discriminate].
    now rewrite (IH zs eq_refl Hbad).
Qed.

(** X9.  A scan result that tests true and is neither a list nor a dict (a
    JSON text, number or true) makes [process_snyk_results] raise
    [AttributeError]; [main] does not catch it, so a run that gets such a
    result from the scanner ends in that exception right after the scan. *)
Theorem scalar_scan_result_raises (snyk_data : value) :
  truthy snyk_data = true ->
  is_container snyk_data = false ->
  process_snyk_results snyk_data = Raise AttributeError /\
  (forall env : Env,
     scan_delivered env snyk_data ->
     main env [] = (Raise AttributeError, scan_trace env)).
Proof.
  intros Ht Hc.
  assert (E : process_snyk_results snyk_data = Raise AttributeError).
  { unfold process_snyk_results. rewrite Ht. cbn [negb].
    destruct snyk_data; try discriminate; reflexivity. }
  split; [exact E|]. intros env Hd.
  rewrite (main_delivered Hd), Ht.
  unfold present_results, lift, bind. now rewrite E.
Qed.

(** X10.  The default of [item.get('vulnerabilities', [])] covers a missing
    key only.  A project without the key is classified into two empty lists;
    a project whose key holds null makes the classification raise
    [TypeError], alone or after any number of sound projects in a monorepo
    result. *)
Theorem null_vulnerabilities_raise (fields : list (string * value)) :
  fields <> [] ->
  (lookup "vulnerabilities" fields = None ->
   process_snyk_results (VDict fields) = Ok ([], [])) /\
  (lookup "vulnerabilities" fields = Some VNone ->
   process_snyk_results (VDict fields) = Raise TypeError /\
   forall before after,
     forallb is_project before = true ->
     process_snyk_results (VList (before ++ VDict fields :: after)) =
       Raise TypeError).
Proof.
  intros Hne.
  assert (Ht : truthy (VDict fields) = true) by now destruct fields.
  split.
  - intros H. unfold process_snyk_results. rewrite Ht. cbn [negb].
    unfold vulnerabilities_of, py_get. now rewrite H.
  - intros H. split.
    + unfold process_snyk_results. rewrite Ht. cbn [negb].
      unfold vulnerabilities_of, py_get. now rewrite H.
    + intros before after Hb. unfold process_snyk_results.
      replace (truthy (VList (before ++ VDict fields :: after))) with true
        by now destruct before.
      cbn [negb]. unfold vulnerabilities_of.
      rewrite (@rmap_stops _ _ item_vulnerabilities before after (VDict fields)
                 _ TypeError (rmap_item_vulnerabilities _ Hb)); [reflexivity|].
      unfold item_vulnerabilities, py_get. now rewrite H.
Qed.

(** X11.  Classification of a monorepo result is classification project by
    project: the fixable list is the concatenation, in project order, of the
    fixable lists of the projects classified one by one, and so is the
    unfixable list. *)
Theorem monorepo_classification_composes (projects : list value) :
  forallb wf_project projects = true ->
  exists parts,
    rmap process_snyk_results projects = Ok parts /\
    process_snyk_results (VList projects) =
      Ok (concat (map fst parts), concat (map snd parts)).
Proof.
  intros H.
  exists (map (fun project =>
                 (filter spec_fixable (project_records project),
                  filter spec_unfixable (project_records project))) projects).
  split.
  - clear -H. induction projects as [|project projects IH]; [reflexivity|].
    cbn [forallb] in H. apply andb_true_iff in H as [Hp Hps].
    cbn [rmap map]. rewrite (IH Hps).
    assert (Hwf : wf_scan project = true).
    { destruct project; try discriminate Hp. exact Hp. }
    rewrite (process_snyk_results_wf _ Hwf).
    destruct project; try discriminate Hp. reflexivity.
  - rewrite (process_snyk_results_wf (VList projects) H).
    cbn [scan_records]. rewrite !filter_concat_map, !map_map. reflexivity.
Qed.

End ClassifierEdges.

(** ** Runs that return *)

Section Returns.
Context {R : Runtime}.
Variable env : Env.



End Returns.

(** ** The classifier and the builders together *)

Section Pipeline.
Context {R : Runtime}.

Lemma has_upgrade_dict (vuln : value) (fix_found : bool) :
  has_upgrade vuln = Ok fix_found -> is_dict vuln = true.
Proof. now destruct vuln. Qed.

Lemma has_upgrade_true (vuln : value) :
  has_upgrade vuln = Ok true ->
  exists fields path n,
    vuln = VDict fields /\
    lookup "upgradePath" fields = Some path /\
    py_len path = Ok n /\ 1 < n.
Proof.
  destruct vuln as [| | | | |fields]; try discriminate.
  unfold has_upgrade, py_get, getitem_key. cbn [rbind].
  destruct (lookup "upgradePath" fields) as [path|] eqn:E; [|discriminate].
  destruct (truthy path); [|discriminate]. cbn [rbind].
  destruct (py_len path) as [n|] eqn:En; [|discriminate]. cbn [rbind].
  intros [= H]. apply Nat.ltb_lt in H. now exists fields, path, n.
Qed.

Lemma has_upgrade_error (vuln : value) (e : pyerr) :
  has_upgrade vuln = Raise e -> e <> IndexError.
Proof.
  destruct vuln as [| | | | |fields]; try (now intros [= <-]).
  unfold has_upgrade, py_get, getitem_key. cbn [rbind].
  destruct (lookup "upgradePath" fields) as [path|]; [|discriminate].
  destruct (truthy path); [|discriminate]. cbn [rbind].
  destruct path; cbn; try discriminate; now intros [= <-].
Qed.

Lemma classify_output (records fixable unfixable fixable' unfixable' : list value) :
  classify records fixable unfixable = Ok (fixable', unfixable') ->
  Forall (fun vuln => has_upgrade vuln = Ok true) fixable ->
  Forall (fun vuln => is_dict vuln = true) unfixable ->
  Forall (fun vuln => has_upgrade vuln = Ok true) fixable' /\
  Forall (fun vuln => is_dict vuln = true) unfixable'.
Proof.
  revert fixable unfixable.
  induction records as [|vuln rest IH]; intros fixable unfixable H Hf Hu.
  - injection H as <- <-. now split.
  - cbn [classify] in H.
    destruct (has_upgrade vuln) as [[|]|] eqn:E; cbn [rbind] in H;
      [apply (IH _ _ H) | apply (IH _ _ H) | discriminate]; try assumption.
    + apply Forall_app. split; [assumption | now constructor].
    + apply Forall_app. split; [assumption|].
      constructor; [exact (has_upgrade_dict _ E) | constructor].
Qed.

Lemma classify_error (records fixable unfixable : list value) (e : pyerr) :
  classify records fixable unfixable = Raise e -> e <> IndexError.
Proof.
  revert fixable unfixable.
  induction records as [|vuln rest IH]; intros fixable unfixable H;
    [discriminate|].
  cbn [classify] in H.
  destruct (has_upgrade vuln) as [[|]|e'] eqn:E; cbn [rbind] in H;
    [now apply IH in H | now apply IH in H |].
  injection H as <-. exact (has_upgrade_error _ E).
Qed.

Lemma item_vulnerabilities_error (item : value) (e : pyerr) :
  item_vulnerabilities item = Raise e -> e <> IndexError.
Proof.
  destruct item as [| | | | |fields]; try (now intros [= <-]).
  unfold item_vulnerabilities, py_get. cbn [rbind].
  destruct (match lookup "vulnerabilities" fields with
            | Some x => x
            | None => VList []
            end); cbn; try discriminate; now intros [= <-].
Qed.

Lemma process_snyk_results_output (snyk_data : value)
    (fixable unfixable : list value) :
  process_snyk_results snyk_data = Ok (fixable, unfixable) ->
  Forall (fun vuln => has_upgrade vuln = Ok true) fixable /\
  Forall (fun vuln => is_dict vuln = true) unfixable.
Proof.
  unfold process_snyk_results.
  destruct (negb (truthy snyk_data)).
  - intros [= <- <-]. now split.
  - destruct (vulnerabilities_of snyk_data) as [found|]; [|discriminate].
    cbn [rbind]. destruct (py_iter found) as [records|]; [|discriminate].
    cbn [rbind]. intros H.
    eapply classify_output; [exact H | constructor | constructor].
Qed.

Lemma process_snyk_results_error (snyk_data : value) (e : pyerr) :
  process_snyk_results snyk_data = Raise e -> e <> IndexError.
Proof.
  unfold process_snyk_results.
  destruct (negb (truthy snyk_data)); [discriminate|].
  destruct (vulnerabilities_of snyk_data) as [found|e'] eqn:Ev; cbn [rbind].
  - destruct (py_iter found) as [records|e''] eqn:Ei; cbn [rbind].
    + apply classify_error.
    + intros [= <-]. destruct found; cbn in Ei; try discriminate;
        now injection Ei as <-.
  - intros [= <-]. unfold vulnerabilities_of in Ev.
    destruct snyk_data as [| | | |items|fields];
      try (cbn in Ev; now injection Ev as <-).
    + destruct (rmap item_vulnerabilities items) as [per_item|e''] eqn:Er;
        cbn [rbind] in Ev; [discriminate|].
      injection Ev as <-. destruct (rmap_raises _ _ Er) as (item & _ & Hi).
      exact (item_vulnerabilities_error _ Hi).
    + discriminate Ev.
Qed.

Lemma upgrade_detail_of_fixable (vuln : value) :
  has_upgrade vuln = Ok true ->
  (exists detail, upgrade_detail vuln = Ok detail) \/
  upgrade_detail vuln = Raise KeyError.
Proof.
  intros H. destruct (has_upgrade_true _ H) as (fields & path & n & -> & Hp & Hn & Hlt).
  unfold upgrade_detail, py_get. cbn [rbind]. rewrite Hp.
  destruct path as [| | |s|items|items]; try discriminate Hn;
    cbn [py_len] in Hn; injection Hn as <-; cbn [getitem_index].
  - destruct (nth_error (py_chars s) 1) eqn:E; [left; eexists; reflexivity|].
    apply nth_error_None in E. lia.
  - destruct (nth_error items 1) eqn:E; [left; eexists; reflexivity|].
    apply nth_error_None in E. lia.
  - now right.
Qed.

Lemma rmap_ok_or (A B : Type) (f : A -> result B) (xs : list A) (e : pyerr) :
  Forall (fun x => (exists y, f x = Ok y) \/ f x = Raise e) xs ->
  (exists ys, rmap f xs = Ok ys) \/ rmap f xs = Raise e.
Proof.
  induction 1 as [|x xs Hx _ IH]; [left; now exists []|].
  cbn [rmap]. destruct Hx as [[y ->] | ->]; [|now right].
  cbn [rbind]. destruct IH as [[ys ->] | ->]; [left; now eexists | now right].
Qed.

Lemma create_upgrade_prompt_of_fixable (fixable : list value) :
  Forall (fun vuln => has_upgrade vuln = Ok true) fixable ->
  (exists prompt, create_upgrade_prompt fixable = Ok prompt) \/
  create_upgrade_prompt fixable = Raise KeyError.
Proof.
  intros H. unfold create_upgrade_prompt.
  destruct (@rmap_ok_or _ _ upgrade_detail fixable KeyError) as [[ds ->] | ->].
  - eapply Forall_impl; [|exact H]. apply upgrade_detail_of_fixable.
  - left. now eexists.
  - now right.
Qed.

Lemma create_replacement_prompt_of_dicts (records : list value) :
  Forall (fun vuln => is_dict vuln = true) records ->
  exists prompt, create_replacement_prompt records = Ok prompt.
Proof.
  intros H. unfold create_replacement_prompt.
  rewrite rmap_replacement_detail.
  replace (forallb is_dict records) with true; [now eexists|].
  symmetry. apply forallb_forall. now apply Forall_forall.
Qed.

(** X14.  Whatever the classifier returns, on any scan result at all, the
    builders never meet the missing placeholder: the replacement builder
    returns a prompt for the unfixable list, and the upgrade builder returns
    a prompt for the fixable list or raises [KeyError] (a fixable record whose
    upgrade path is a dict), never [IndexError]. *)
Theorem classifier_output_feeds_builders (snyk_data : value)
    (fixable unfixable : list value) :
  process_snyk_results snyk_data = Ok (fixable, unfixable) ->
  (exists prompt, create_replacement_prompt unfixable = Ok prompt) /\
  ((exists prompt, create_upgrade_prompt fixable = Ok prompt) \/
   create_upgrade_prompt fixable = Raise KeyError).
Proof.
  intros H. apply process_snyk_results_output in H as [Hf Hu]. split.
  - now apply create_replacement_prompt_of_dicts.
  - now apply create_upgrade_prompt_of_fixable.
Qed.

Ltac run_query :=
  match goal with
  | |- context [get_ai_response ?e ?p ?t] =>
      let text := fresh "text" in
      let t' := fresh "trace" in
      destruct (get_ai_response_returns e p t) as (text & t' & ->)
  end.

Lemma present_results_outcome (env : Env) (snyk_results : value)
    (trace : list event) :
  fst (present_results env snyk_results trace) <> Raise IndexError.
Proof.
  unfold present_results, lift. unfold bind at 1.
  destruct (process_snyk_results snyk_results) as [[fixable unfixable]|e] eqn:E.
  2: { cbn [fst]. intros [= ->]. now apply process_snyk_results_error in E. }
  destruct (process_snyk_results_output _ E) as [Hf Hu].
  destruct (create_replacement_prompt_of_dicts Hu) as [p2 Hp2].
  cbn [fst snd]. rewrite Hp2.
  destruct (truthy (VList fixable)).
  - destruct (create_upgrade_prompt_of_fixable Hf) as [[p1 ->] | ->].
    + unfold bind, print, emit. run_query.
      destruct (truthy (VList unfixable)); [run_query|]; discriminate.
    + unfold bind. discriminate.
  - unfold bind, print, emit.
    destruct (truthy (VList unfixable)); [run_query|]; discriminate.
Qed.

(** X15.  No run of [main] ends in [IndexError]: the index into the
    one-element default of [create_upgrade_prompt] is out of reach of the
    records that [main] passes on from the classifier. *)
Theorem main_never_raises_index_error (env : Env) :
  fst (main env []) <> Raise IndexError.
Proof.
  rewrite main_unfold.
  destruct (env_api_key env) as [api_key|]; [|discriminate].
  destruct (negb (truthy (VStr api_key))); [discriminate|].
  destruct (negb (truthy (VStr (env_input env)))
            || negb (env_isdir env (env_input env)))%bool; [discriminate|].
  rewrite run_snyk_scan_unfold.
  destruct (env_snyk env (env_input env)) as [|returncode stdout stderr];
    [discriminate|].
  destruct (negb (Z.eqb returncode 0) && negb (truthy (VStr stdout)))%bool;
    [discriminate|].
  destruct (json_loads env stdout) as [parsed|]; [|discriminate].
  destruct (truthy parsed); [|discriminate].
  apply present_results_outcome.
Qed.

End Pipeline.

(** ** Runs with one kind of record *)

Section OneSided.
Context {R : Runtime}.
Variable env : Env.

Lemma records_make_truthy (snyk_data : value) (fixable unfixable : list value) :
  process_snyk_results snyk_data = Ok (fixable, unfixable) ->
  fixable <> [] \/ unfixable <> [] ->
  truthy snyk_data = true.
Proof.
  intros H Hne. destruct (truthy snyk_data) eqn:Ht; [reflexivity|].
  unfold process_snyk_results in H. rewrite Ht in H.
  injection H as <- <-. now destruct Hne.
Qed.

(** X13.  When every record is fixable, [main] makes the upgrade query only
    and closes with the notice that all vulnerabilities have an upgrade path;
    when none is, it opens with the notice that no fixable vulnerability was
    found and makes the replacement query only.  Either way the text the
    client returned is printed right after the banner. *)
Theorem one_sided_runs (snyk_data : value) :
  scan_delivered env snyk_data ->
  wf_scan snyk_data = true ->
  (filter spec_fixable (scan_records snyk_data) <> [] ->
   filter spec_unfixable (scan_records snyk_data) = [] ->
   exists upgrade_prompt upgrade_plan trace1,
     create_upgrade_prompt (scan_records snyk_data) = Ok upgrade_prompt /\
     get_ai_response env (VStr upgrade_prompt) (scan_trace env) =
       (Ok upgrade_plan, trace1) /\
     main env [] =
       (Ok tt,
        (trace1 ++ upgrade_banner ++
         [EPrint upgrade_plan; EPrint all_fixable_notice])%list)) /\
  (filter spec_fixable (scan_records snyk_data) = [] ->
   filter spec_unfixable (scan_records snyk_data) <> [] ->
   exists replacement_prompt replacement_suggestions trace1,
     create_replacement_prompt (scan_records snyk_data) = Ok replacement_prompt /\
     get_ai_response env (VStr replacement_prompt)
       (scan_trace env ++ [EPrint no_fixable_notice])%list =
       (Ok replacement_suggestions, trace1) /\
     main env [] =
       (Ok tt,
        (trace1 ++ replacement_banner ++ [EPrint replacement_suggestions])%list)).
Proof.
  intros Hd Hwf.
  pose proof (process_snyk_results_wf _ Hwf) as Hc.
  destruct (classified_prompts _ Hwf) as (p1 & p2 & Hp1 & Hp2).
  split; intros Hf Hu.
  - assert (Hall : filter spec_fixable (scan_records snyk_data) = scan_records snyk_data).
    { clear -Hu. induction (scan_records snyk_data) as [|v l IH]; [reflexivity|].
      cbn [filter] in *. unfold spec_unfixable in Hu at 1.
      destruct (spec_fixable v); [|discriminate]. cbn [negb] in Hu.
      now rewrite (IH Hu). }
    destruct (get_ai_response_returns env (VStr p1) (scan_trace env))
      as (plan & t1 & E1).
    exists p1, plan, t1. rewrite <- Hall at 1.
    split; [assumption|]. split; [assumption|].
    rewrite (main_delivered Hd), (records_make_truthy _ Hc (or_introl Hf)).
    unfold present_results, lift. unfold bind at 1. rewrite Hc. cbn [fst snd].
    rewrite Hu, (truthy_list Hf), Hp1. cbn [truthy List.length Nat.eqb negb].
    unfold bind at 1 2 3. rewrite E1.
    unfold bind, print, emit, upgrade_banner, all_fixable_notice.
    now rewrite <- !app_assoc.
  - assert (Hall : filter spec_unfixable (scan_records snyk_data) = scan_records snyk_data).
    { clear -Hf. induction (scan_records snyk_data) as [|v l IH]; [reflexivity|].
      cbn [filter] in *. unfold spec_unfixable at 1.
      destruct (spec_fixable v); [discriminate|]. cbn [negb].
      now rewrite (IH Hf). }
    destruct (get_ai_response_returns env (VStr p2)
                (scan_trace env ++ [EPrint no_fixable_notice])%list)
      as (sugg & t1 & E1).
    exists p2, sugg, t1. rewrite <- Hall at 1.
    split; [assumption|]. split; [assumption|].
    rewrite (main_delivered Hd), (records_make_truthy _ Hc (or_intror Hu)).
    unfold present_results, lift. unfold bind at 1. rewrite Hc. cbn [fst snd].
    rewrite Hf, (truthy_list Hu), Hp2. cbn [truthy List.length Nat.eqb negb].
    unfold bind at 1. unfold print at 1. unfold emit at 1.
    unfold bind at 1 2. fold no_fixable_notice. rewrite E1.
    unfold bind, print, emit, replacement_banner.
    now rewrite <- !app_assoc.
Qed.

End OneSided.

(** ** Worked runs *)

Section Runs.
#[local] Existing Instance int_runtime.

Lemma classification_partitions_witness :
  wf_scan monorepo_scan = true /\
  process_snyk_results monorepo_scan = Ok ([lodash], [old_lib; old_lib]).
Proof.
  split; [reflexivity|].
  destruct (classification_partitions monorepo_scan eq_refl)
    as (fixable & unfixable & Hp & -> & -> & _).
  exact Hp.
Defined.

Lemma upgrade_prompt_short_path_raises_witness :
  short_upgrade_path old_lib = true /\
  create_upgrade_prompt [old_lib; lodash] = Raise IndexError.
Proof.
  split; [reflexivity|].
  exact (upgrade_prompt_short_path_raises old_lib [lodash] eq_refl).
Defined.

Lemma retry_only_on_rate_limit_witness :
  let env :=
    scanning_env "{}" (VDict [])
      [Failed (ResourceExhausted "429 quota exceeded"); Returned "1. Upgrade lodash"] in
  truthy (VStr "plan the upgrades") = true /\
  fst (get_ai_response env (VStr "plan the upgrades") []) = Ok "1. Upgrade lodash" /\
  remote_calls (snd (get_ai_response env (VStr "plan the upgrades") [])) - 0 = 2.
Proof.
  intros env. split; [reflexivity|].
  destruct (retry_only_on_rate_limit env (VStr "plan the upgrades") [] eq_refl)
    as (_ & H & _).
  exact (H "429 quota exceeded" "1. Upgrade lodash" eq_refl eq_refl).
Defined.

Lemma monorepo_flattening_witness :
  forallb is_project [VDict [("vulnerabilities", VList [lodash; old_lib])];
                      VDict [("vulnerabilities", VList [old_lib])];
                      VDict [("projectName", VStr "docs")]] = true /\
  vulnerabilities_of
    (VList [VDict [("vulnerabilities", VList [lodash; old_lib])];
            VDict [("vulnerabilities", VList [old_lib])];
            VDict [("projectName", VStr "docs")]]) =
    Ok (VList [lodash; old_lib; old_lib]).
Proof.
  split; [reflexivity|].
  exact (proj1 (proj1 monorepo_flattening
                  [VDict [("vulnerabilities", VList [lodash; old_lib])];
                   VDict [("vulnerabilities", VList [old_lib])];
                   VDict [("projectName", VStr "docs")]] eq_refl)).
Defined.

Lemma prompt_builders_deterministic_witness :
  Forall2 same_record [lodash] [lodash_reordered] /\
  create_upgrade_prompt [lodash] = create_upgrade_prompt [lodash_reordered] /\
  create_replacement_prompt [lodash] = create_replacement_prompt [lodash_reordered].
Proof.
  assert (H : Forall2 same_record [lodash] [lodash_reordered]).
  { constructor; [|constructor]. intros key. cbn [lookup].
    repeat match goal with
           | |- context [String.eqb key ?k] =>
               destruct (String.eqb_spec key k) as [->|]; [reflexivity|]
           end.
    reflexivity. }
  split; [exact H|].
  destruct (prompt_builders_deterministic H) as (U & P & _).
  exact (conj U P).
Defined.

Lemma empty_prompt_short_circuits_witness :
  let env := scanning_env "{}" (VDict []) [Returned "never asked"] in
  truthy (VList []) = false /\
  get_ai_response env (VList []) [EPrint "before"] =
    (Ok "Prompt could not be created.", [EPrint "before"]).
Proof.
  intros env. split; [reflexivity|].
  destruct (empty_prompt_short_circuits env [EPrint "before"]) as (_ & _ & H).
  exact (proj1 (H (VList []) eq_refl)).
Defined.

Lemma scanning_env_delivers (stdout : string) (parsed : value)
    (script : list attempt) :
  stdout <> "" -> scan_delivered (scanning_env stdout parsed script) parsed.
Proof.
  intros H. exists "key", 1%Z, stdout, "". cbn.
  rewrite String.eqb_refl.
  destruct (String.eqb_spec stdout ""); [contradiction|].
  repeat split.
Qed.

Lemma empty_scan_makes_no_query_witness :
  let env := scanning_env clean_stdout clean_scan [] in
  wf_scan clean_scan = true /\
  scan_records clean_scan = [] /\
  scan_delivered env clean_scan /\
  truthy clean_scan = true /\
  remote_calls (snd (main env [])) = 0 /\
  printed (snd (main env [])) =
    ["🔬 Running Snyk scan... (This may take a moment)";
     no_fixable_notice; all_fixable_notice].
Proof.
  intros env.
  assert (D : scan_delivered env clean_scan)
    by (apply scanning_env_delivers; discriminate).
  destruct (empty_scan_makes_no_query env clean_scan eq_refl eq_refl)
    as (_ & H).
  destruct (H D) as (Hcalls & Hmain & _).
  repeat (split; [first [reflexivity | assumption]|]).
  rewrite (Hmain eq_refl). reflexivity.
Defined.

(** C8, as stated, fails on the scan result [{}]: it holds no vulnerability,
    the scanner delivers it, and [main] returns right after the scan, with
    neither notice printed. *)
Lemma empty_scan_prints_no_notice :
  let env := scanning_env "{}" (VDict []) [] in
  wf_scan (VDict []) = true /\
  scan_records (VDict []) = [] /\
  scan_delivered env (VDict []) /\
  main env [] = (Ok tt, scan_trace env) /\
  ~ In no_fixable_notice (printed (snd (main env []))) /\
  ~ In all_fixable_notice (printed (snd (main env []))).
Proof.
  intros env. split; [reflexivity|]. split; [reflexivity|].
  split; [apply scanning_env_delivers; discriminate|].
  split; [reflexivity|].
  split; intros [H|[]]; discriminate H.
Qed.

Lemma ai_failures_are_reported_witness :
  let env :=
    scanning_env mixed_stdout mixed_scan
      [Failed (OtherException "503 service unavailable");
       Returned "Replace old-lib with new-lib."] in
  scan_delivered env mixed_scan /\
  wf_scan mixed_scan = true /\
  filter spec_fixable (scan_records mixed_scan) <> [] /\
  filter spec_unfixable (scan_records mixed_scan) <> [] /\
  exists replacement_prompt,
    create_replacement_prompt [old_lib] = Ok replacement_prompt /\
    In (EGenerate "gemini-1.5-flash-latest" (VStr replacement_prompt))
       (snd (main env [])).
Proof.
  intros env.
  assert (D : scan_delivered env mixed_scan)
    by (apply scanning_env_delivers; discriminate).
  assert (F : filter spec_fixable (scan_records mixed_scan) <> []) by discriminate.
  assert (U : filter spec_unfixable (scan_records mixed_scan) <> []) by discriminate.
  repeat (split; [first [reflexivity | assumption]|]).
  destruct (proj2 (proj2 (proj2 (ai_failures_are_reported env))) mixed_scan D eq_refl F U)
    as (p1 & p2 & plan & t1 & sugg & t2 & _ & Hp2 & _ & _ & Hm & _ & Hin).
  exists p2. split; [exact Hp2|].
  rewrite Hm. cbn [snd]. apply in_or_app. now left.
Defined.

End Runs.

(** ** More worked runs *)

Section MoreRuns.
#[local] Existing Instance int_runtime.

Lemma scan_tolerates_exit_code_witness :
  let env := scanning_env mixed_stdout mixed_scan [] in
  env_snyk env "/srv/project" = Completed 1 mixed_stdout "" /\
  mixed_stdout <> "" /\
  json_loads env mixed_stdout = Some mixed_scan /\
  run_snyk_scan env "/srv/project" [] =
    (Ok mixed_scan, scan_started "/srv/project").
Proof.
  intros env.
  assert (Hout : mixed_stdout <> "") by discriminate.
  split; [reflexivity|]. split; [exact Hout|]. split; [reflexivity|].
  exact (scan_tolerates_exit_code env "/srv/project" []
           (returncode := 1) (stderr := "") eq_refl Hout eq_refl).
Defined.

Lemma scan_failure_modes_witness :
  run_snyk_scan failed_tool_env "/srv/project" [] =
    (Ok VNone,
     (scan_started "/srv/project" ++
      [EPrint ("❌ Snyk command failed with an error:" ++ nl ++
               "snyk: authentication failed")])%list).
Proof.
  destruct (scan_failure_modes failed_tool_env "/srv/project" []) as (_ & H & _).
  refine (H 2%Z "snyk: authentication failed" _ eq_refl). discriminate.
Defined.

Lemma main_requires_credential_witness :
  (env_api_key no_key_env = None \/ env_api_key no_key_env = Some "") /\
  main no_key_env [] =
    (Ok tt, [EPrint "🚨 Please set the GOOGLE_API_KEY in a .env file."]).
Proof.
  split; [now right|].
  exact (main_requires_credential no_key_env [] (or_intror eq_refl)).
Defined.

Lemma main_rejects_invalid_path_witness :
  env_api_key bad_path_env = Some "key" /\
  env_isdir bad_path_env (env_input bad_path_env) = false /\
  launches (snd (main bad_path_env [])) = 0.
Proof.
  split; [reflexivity|]. split; [reflexivity|].
  refine (proj2 (main_rejects_invalid_path bad_path_env [] eq_refl _
                   (or_intror eq_refl))).
  discriminate.
Defined.


Lemma upgrade_prompt_shows_every_record_witness :
  exists prompt,
    create_upgrade_prompt [lodash; lodash_reordered] = Ok prompt /\
    contains prompt
      (upgrade_block
         [("upgradePath", VList [VBool false; VStr "lodash@4.17.21"]);
          ("severity", VStr "high"); ("title", VStr "Prototype Pollution");
          ("version", VStr "4.0.0"); ("packageName", VStr "lodash")]
         (VStr "lodash@4.17.21")).
Proof.
  eexists. split; [reflexivity|].
  destruct (upgrade_prompt_shows_every_record [lodash; lodash_reordered] eq_refl)
    as (_ & H).
  destruct (H _ [VBool false; VStr "lodash@4.17.21"]
              (or_intror (or_introl eq_refl)) eq_refl) as (upgrade & Hu & Hc).
  injection Hu as <-. exact Hc.
Defined.

Lemma scalar_scan_result_raises_witness :
  truthy (VStr "Unauthorized") = true /\
  is_container (VStr "Unauthorized") = false /\
  main (scanning_env text_stdout (VStr "Unauthorized") []) [] =
    (Raise AttributeError,
     scan_trace (scanning_env text_stdout (VStr "Unauthorized") [])).
Proof.
  split; [reflexivity|]. split; [reflexivity|].
  refine (proj2 (scalar_scan_result_raises (VStr "Unauthorized") eq_refl eq_refl)
            _ (scanning_env_delivers _ _ _)).
  discriminate.
Defined.

Lemma null_vulnerabilities_raise_witness :
  lookup "vulnerabilities" [("ok", VBool false); ("vulnerabilities", VNone)] =
    Some VNone /\
  process_snyk_results null_project = Raise TypeError /\
  process_snyk_results (VList [clean_scan; null_project; mixed_scan]) =
    Raise TypeError.
Proof.
  split; [reflexivity|].
  assert (Hne : [("ok", VBool false); ("vulnerabilities", VNone)] <> [])
    by discriminate.
  destruct (proj2 (null_vulnerabilities_raise Hne) eq_refl) as [H1 H2].
  split; [exact H1|].
  exact (H2 [clean_scan] [mixed_scan] eq_refl).
Defined.

Lemma monorepo_classification_composes_witness :
  forallb wf_project [mixed_scan; clean_scan; upgradable_scan] = true /\
  exists parts,
    rmap process_snyk_results [mixed_scan; clean_scan; upgradable_scan] = Ok parts /\
    process_snyk_results (VList [mixed_scan; clean_scan; upgradable_scan]) =
      Ok (concat (map fst parts), concat (map snd parts)).
Proof.
  split; [reflexivity|].
  exact (monorepo_classification_composes
           [mixed_scan; clean_scan; upgradable_scan] eq_refl).
Defined.



Lemma one_sided_runs_witness :
  let env := scanning_env upgradable_stdout upgradable_scan [Returned "1. Upgrade lodash"] in
  scan_delivered env upgradable_scan /\
  wf_scan upgradable_scan = true /\
  filter spec_unfixable (scan_records upgradable_scan) = [] /\
  exists upgrade_prompt upgrade_plan trace1,
    create_upgrade_prompt (scan_records upgradable_scan) = Ok upgrade_prompt /\
    get_ai_response env (VStr upgrade_prompt) (scan_trace env) =
      (Ok upgrade_plan, trace1) /\
    main env [] =
      (Ok tt,
       (trace1 ++ upgrade_banner ++
        [EPrint upgrade_plan; EPrint all_fixable_notice])%list).
Proof.
  intros env.
  assert (D : scan_delivered env upgradable_scan)
    by (apply scanning_env_delivers; discriminate).
  split; [exact D|]. split; [reflexivity|]. split; [reflexivity|].
  refine (proj1 (one_sided_runs D eq_refl) _ eq_refl). discriminate.
Defined.

Lemma classifier_output_feeds_builders_witness :
  process_snyk_results monorepo_scan = Ok ([lodash], [old_lib; old_lib]) /\
  (exists prompt, create_replacement_prompt [old_lib; old_lib] = Ok prompt) /\
  ((exists prompt, create_upgrade_prompt [lodash] = Ok prompt) \/
   create_upgrade_prompt [lodash] = Raise KeyError).
Proof.
  split; [reflexivity|].
  exact (classifier_output_feeds_builders monorepo_scan eq_refl).
Defined.

End MoreRuns.
